(** * Environment configuration of the API (src/api/config/environment.config.ts)

    A shallow embedding of the module that turns [process.argv] and
    [process.env] into the frozen configuration objects exported to the
    rest of the service, and the properties of that resolution.

    Conventions of the embedding.
    - A JavaScript string is a [string]; its characters stand for code
      units below 256.
    - A value read from [process.env], from an args object or from
      [process.argv] past its end is a [JSValue]: [Some s] for the string
      [s], [None] for [undefined].  Where the source writes [null] the
      embedding also uses [None], in fields of their own.
    - [process.env] is a finite map from keys to strings.
    - An enum or object literal used as a lookup table is the ordered list
      of its own members.  An enum is a plain object: a lookup [E[k]] finds
      its own member [k] or, failing that, the member of that name it
      inherits from [Object.prototype], which is a function or an object
      and not a string.
    - A thrown [Error] ends the evaluation: a computation returns in
      [Completion], either [Return v] or [Throw message]. *)

From Stdlib Require Import ZArith Ascii String.
From stdpp Require Import gmap strings list fin_maps.

Local Open Scope Z_scope.

(** ** Values and completions *)

Abbreviation JSValue := (option string) (only parsing).

(** [!!value] for a string or undefined: only the empty string and
    [undefined] are falsy. *)
Definition truthy (value : JSValue) : bool :=
  match value with
  | Some (String _ _) => true
  | _ => false
  end.

(** [a || b] where [b] is a string. *)
Definition or_else (a : JSValue) (b : string) : string :=
  match a with
  | Some (String c s) => String c s
  | _ => b
  end.

(** [a || null]. *)
Definition or_null (a : JSValue) : JSValue :=
  if truthy a then a else None.

(** [ToString] as applied by template literals and by [parseInt]. *)
Definition ToString (value : JSValue) : string :=
  match value with
  | Some s => s
  | None => "undefined"
  end.

Inductive Completion (A : Type) : Type :=
  | Return (value : A)
  | Throw (message : string).
Arguments Return {A} value.
Arguments Throw {A} message.

(** Sequencing: the first [Throw] ends the evaluation.  With this instance
    [x ← c; k] evaluates [c] and, when it returns, binds its value in [k]. *)
#[global] Instance Completion_bind : MBind Completion := λ A B k c,
  match c with
  | Return a => k a
  | Throw m => Throw m
  end.

(** The message a computation ends on, if it throws. *)
Definition failure {A} (c : Completion A) : option string :=
  match c with
  | Return _ => None
  | Throw message => Some message
  end.

(** [if (cond) { throw new Error(message) }] followed by the rest. *)
Notation "'throw_when' cond 'new_Error' message ;;; k" :=
  (if cond then Throw message else k)
  (at level 10, cond at level 9, message at level 9, k at level 200,
   only parsing).

(** ** Numbers produced by [parseInt]

    [parseInt] yields [NaN] or the Number JavaScript makes of the integer
    it has read.  [Int z] stands for the Number made of the integer [z]:
    [z] itself up to 2^53 in magnitude, and beyond that a double near [z]
    (the nearest one, or the one of an approximation that the language
    allows past twenty digits).  The Number made of [z] is zero exactly
    when [z] is and is never [NaN], which is all that [isNaN], [!!] and
    [||] look at; a statement that names the value of a number is exact
    up to 2^53. *)
Inductive Number : Type :=
  | NaN
  | Int (z : Z).

Definition isNaN (n : Number) : bool :=
  match n with
  | NaN => true
  | Int _ => false
  end.

(** [!!n]: [NaN] and zero are falsy. *)
Definition truthy_number (n : Number) : bool :=
  match n with
  | NaN => false
  | Int z => negb (z =? 0)
  end.

(** [n || d] for a non-zero default [d]. *)
Definition number_or (n : Number) (d : Z) : Z :=
  match n with
  | NaN => d
  | Int z => if z =? 0 then d else z
  end.

(** White space skipped by [parseInt], among the code units below 256. *)
Definition is_white_space (c : ascii) : bool :=
  match c with
  | "009" | "010" | "011" | "012" | "013" | " " | "160" => true
  | _ => false
  end%char.

Fixpoint trim_start (s : string) : string :=
  match s with
  | String c s' => if is_white_space c then trim_start s' else s
  | "" => ""
  end.

Definition digit_value (c : ascii) : option Z :=
  let n := Z.of_N (N_of_ascii c) in
  if (48 <=? n) && (n <=? 57) then Some (n - 48) else None.

(** Value of the longest prefix of decimal digits, [acc] being the value
    of the digits already read ([None] when none was read). *)
Fixpoint parse_digits (s : string) (acc : option Z) : option Z :=
  match s with
  | String c s' =>
      match digit_value c with
      | Some d => parse_digits s' (Some (10 * default 0 acc + d))
      | None => acc
      end
  | "" => acc
  end.

(** The sign announced by a leading [-] or [+], and the string without it. *)
Definition take_sign (s : string) : Z * string :=
  match s with
  | String c r =>
      if bool_decide (c = "-"%char) then (-1, r)
      else if bool_decide (c = "+"%char) then (1, r)
      else (1, s)
  | "" => (1, "")
  end.

(** [parseInt(value, 10)]. *)
Definition parseInt (value : JSValue) : Number :=
  let '(sign, s) := take_sign (trim_start (ToString value)) in
  match parse_digits s None with
  | None => NaN
  | Some n => Int (sign * n)
  end.

(** How [parseInt(raw, 10) || d] resolves: to [d] when the raw value is
    absent, when it does not parse and when it parses to zero, and to the
    parsed number otherwise. *)
Definition defaulted (raw : JSValue) (d value : Z) : Prop :=
  (raw = None → value = d) ∧
  (isNaN (parseInt raw) = true → value = d) ∧
  (parseInt raw = Int 0 → value = d) ∧
  (∀ z, parseInt raw = Int z → z ≠ 0 → value = z).

(** ** Strings and arrays *)

(** [pat] occurs in [s] at position 0. *)
Fixpoint occurs_at_start (pat s : string) : bool :=
  match pat, s with
  | "", _ => true
  | String p pat', String c s' => bool_decide (p = c) && occurs_at_start pat' s'
  | String _ _, "" => false
  end.

(** [s.lastIndexOf(pat)], counting positions from [i]. *)
Fixpoint lastIndexOf_from (s pat : string) (i : Z) : Z :=
  match s with
  | "" => if occurs_at_start pat "" then i else -1
  | String _ s' =>
      let r := lastIndexOf_from s' pat (i + 1) in
      if r =? -1 then (if occurs_at_start pat s then i else -1) else r
  end.

Definition lastIndexOf (s pat : string) : Z := lastIndexOf_from s pat 0.

(** [array.indexOf(x)], counting positions from [i]. *)
Fixpoint indexOf_from (array : list string) (x : string) (i : Z) : Z :=
  match array with
  | [] => -1
  | y :: rest => if bool_decide (y = x) then i else indexOf_from rest x (i + 1)
  end.

Definition indexOf (array : list string) (x : string) : Z :=
  indexOf_from array x 0.

(** [array[i]] for an index that is not negative. *)
Definition at_index (array : list string) (i : Z) : JSValue :=
  if i <? 0 then None else array !! Z.to_nat i.

(** [s.split(sep)] for a separator of one character. *)
Fixpoint split (sep : ascii) (s : string) : list string :=
  match s with
  | "" => [""]
  | String c s' =>
      if bool_decide (c = sep) then "" :: split sep s'
      else match split sep s' with
           | w :: ws => String c w :: ws
           | [] => [String c ""]
           end
  end.

(** [array.join(sep)]. *)
Definition join (sep : string) (array : list string) : string :=
  String.concat sep array.

(** ** Lookup tables *)

Definition Enum : Type := list (string * string).

(** The own member of [table] named [key], if any. *)
Fixpoint member {V} (table : list (string * V)) (key : string) : option V :=
  match table with
  | [] => None
  | (k, v) :: rest => if bool_decide (k = key) then Some v else member rest key
  end.

(** [Object.keys(table)]. *)
Definition keys {V} (table : list (string * V)) : list string := table.*1.

(** The names of the members of [Object.prototype], which every plain
    object inherits. *)
Definition Object_prototype : list string :=
  ["constructor"; "__defineGetter__"; "__defineSetter__"; "hasOwnProperty";
   "__lookupGetter__"; "__lookupSetter__"; "isPrototypeOf";
   "propertyIsEnumerable"; "toString"; "valueOf"; "__proto__";
   "toLocaleString"].

(** What a lookup in an enum finds: a string of the enum's own, or the
    member of [Object.prototype] of the given name (a function, and for
    [__proto__] the prototype itself). *)
Inductive Value : Type :=
  | Str (s : string)
  | Inherited (name : string).

#[global] Instance Value_eq_dec : EqDecision Value.
Proof. solve_decision. Defined.

(** [E[key]] on an enum [E]: an own member first, an inherited one next,
    [undefined] otherwise. *)
Definition get (E : Enum) (key : string) : option Value :=
  match member E key with
  | Some v => Some (Str v)
  | None =>
      if bool_decide (key ∈ Object_prototype) then Some (Inherited key)
      else None
  end.

(** [!!v]: functions and objects are truthy, strings unless empty. *)
Definition truthy_value (v : option Value) : bool :=
  match v with
  | Some (Str s) => truthy (Some s)
  | Some (Inherited _) => true
  | None => false
  end.

(** [a || b]. *)
Definition value_or (a : option Value) (b : Value) : Value :=
  match a with
  | Some v => if truthy_value a then v else b
  | None => b
  end.

(** ** Declarations imported by the module *)

(** Modelled from the spec: the declaration of the ENVIRONMENT enum
    (@enums/environment.enum) is not among the sources.  The spec gives
    its variants as development, staging, production and test; the module
    uses the value of a variant as the name of its .env file and compares
    it with the literal ['production'], so each variant is named by its
    own value. *)
Module ENVIRONMENT.
Definition development : string := "development".
Definition staging : string := "staging".
Definition production : string := "production".
Definition test : string := "test".
Definition members : Enum :=
  [("development", development); ("staging", staging);
   ("production", production); ("test", test)].
End ENVIRONMENT.

(** Modelled from the spec: the declaration of CONTENT_MIME_TYPE
    (@enums/mime-type.enum) is not among the sources.  The spec calls it a
    fixed small set with default application/json; the module documents
    the supported values as application/json, application/vnd.api+json and
    multipart/form-data. *)
Definition CONTENT_MIME_TYPE : Enum :=
  [("application/json", "application/json");
   ("application/vnd.api+json", "application/vnd.api+json");
   ("multipart/form-data", "multipart/form-data")].

(** ** The exported objects *)

(** The static fields of the class EnvironmentConfiguration. *)
Record EnvironmentConfiguration : Type := {
  environment : Value;
  base : JSValue
}.

Module Logs.
Record t : Type := { token : string; path : string }.
End Logs.

Module Resize.
Record Destinations : Type := { master : string; scale : string }.
Record Sizes : Type := { xs : Z; sm : Z; md : Z; lg : Z; xl : Z }.
Record t : Type := {
  isActive : bool;
  destinations : Destinations;
  sizes : Sizes
}.
End Resize.

Module Ssl.
Record t : Type := { isActive : bool; key : JSValue; cert : JSValue }.
End Ssl.

Module Typeorm.
Record t : Type := {
  type : JSValue;
  name : string;
  port : JSValue;
  host : JSValue;
  database : JSValue;
  user : JSValue;
  pwd : JSValue;
  sync : bool;
  log : bool;
  entities : string;
  migrations : string;
  subscribers : string
}.
End Typeorm.

Module Upload.
Record t : Type := {
  destination : string;
  filesize : Z;
  wildcards : list string;
  maxFiles : Z
}.
End Upload.

Module Exports.
Record t : Type := {
  env : Value;
  port : JSValue;
  authorized : string;
  contentType : string;
  ssl : Ssl.t;
  jwtSecret : string;
  jwtExpirationInterval : Number;
  version : string;
  logs : Logs.t;
  typeorm : Typeorm.t;
  upload : Upload.t;
  resize : Resize.t
}.
End Exports.

(** [Object.keys(process.env)]. *)
Definition Object_keys (m : gmap string string) : list string :=
  (map_to_list m).*1.

(** ** Sample inputs

    A deployment on which the properties below are exercised. *)
Module Sample.
Definition argv_plain : list string := ["node"; "app.bootstrap.js"].
Definition argv_test : list string := argv_plain ++ ["--env"; "test"].
Definition argv_production : list string :=
  argv_plain ++ ["--env"; "production"].

Definition cwd : string := "/srv/api".

(** A disk on which every path exists. *)
Definition all_on_disk (path : string) : bool := true.
(** A disk that holds the four .env files and nothing else. *)
Definition env_files (path : string) : bool :=
  bool_decide
    (path ∈ ["/srv/api/dist/env/development.env";
             "/srv/api/dist/env/test.env";
             "/srv/api//env/staging.env";
             "/srv/api//env/production.env"]).
(** How Node prints the members of [Object.prototype]. *)
Definition inherited_text (name : string) : string :=
  if bool_decide (name = "__proto__") then "[object Object]"
  else if bool_decide (name = "constructor")
       then "function Object() { [native code] }"
       else "function " +:+ name +:+ "() { [native code] }".
(** A disk that holds the certificate and no private key. *)
Definition cert_only (path : string) : bool :=
  bool_decide (path = "/etc/ssl/api.crt").

(** The database keys, without a password. *)
Definition database : list (string * string) :=
  [("TYPEORM_TYPE", "mysql"); ("TYPEORM_PORT", "3306");
   ("TYPEORM_HOST", "localhost"); ("TYPEORM_DB", "api");
   ("TYPEORM_USER", "api")].

(** The keys the module cannot do without. *)
Definition required : list (string * string) :=
  [("AUTHORIZED", "http://localhost:4200"); ("JWT_SECRET", "s3cr3t");
   ("JWT_EXPIRATION_MINUTES", "120"); ("TYPEORM_PWD", "pa55")] ++ database.

Definition AUDIO_MIME_TYPE : Enum :=
  [("audio/mpeg", "audio/mpeg"); ("audio/wav", "audio/wav")].
Definition ARCHIVE_MIME_TYPE : Enum := [("application/zip", "application/zip")].
Definition DOCUMENT_MIME_TYPE : Enum := [("application/pdf", "application/pdf")].
Definition IMAGE_MIME_TYPE : Enum :=
  [("image/png", "image/png"); ("image/jpeg", "image/jpeg")].
Definition VIDEO_MIME_TYPE : Enum := [("video/mp4", "video/mp4")].

(** A [list] that answers the values of the members, in order. *)
Definition enum_list (e : Enum) : list string := e.*2.
End Sample.

(** ** The module

    Everything the module reads from outside is a variable of the section:
    the start-up arguments, the working directory, which paths exist on
    disk, how an inherited function prints, [process.env] as it is once
    dotenv has merged the .env file, and the declarations of @enums/mime-type.enum and @utils/enum.util that
    are not among the sources. *)
Section environment_config.

Set Default Proof Using "Type".

(** [process.argv]. *)
Variable argv : list string.
(** [process.cwd()]. *)
Variable cwd : string.
(** The paths that exist on disk. *)
Variable on_disk : string → bool.
(** The text a template literal makes of the member of [Object.prototype]
    of a given name; for a function it is left to the implementation. *)
Variable inherited_text : string → string.
(** [process.env]. *)
Variable process_env : gmap string string.

(** The five media categories of @enums/mime-type.enum. *)
Variables AUDIO_MIME_TYPE ARCHIVE_MIME_TYPE DOCUMENT_MIME_TYPE
          IMAGE_MIME_TYPE VIDEO_MIME_TYPE : Enum.
(** [list] of @utils/enum.util, which lists an enum as an array. *)
Variable enum_list : Enum → list string.

(** [existsSync(path)] of fs; it answers false to [undefined]. *)
Definition existsSync (path : JSValue) : bool :=
  match path with
  | Some p => on_disk p
  | None => false
  end.

(** *** class EnvironmentConfiguration *)

(** The static fields as initialised by the class body. *)
Definition EnvironmentConfiguration_init : EnvironmentConfiguration :=
  {| environment := Str ENVIRONMENT.development; base := None |}.

(** [`${value}`] for what the field [environment] may hold. *)
Definition Value_text (value : Value) : string :=
  match value with
  | Str s => s
  | Inherited name => inherited_text name
  end.

(** [static load()]: the fields it leaves behind, and how it completes. *)
Definition load (this : EnvironmentConfiguration)
  : EnvironmentConfiguration * Completion unit :=
  let this :=
    if bool_decide (indexOf argv "--env" ≠ -1) then
      {| environment :=
           value_or
             (get ENVIRONMENT.members
                (ToString (at_index argv (indexOf argv "--env" + 1))))
             (Str ENVIRONMENT.development);
         base := base this |}
    else this in
  let this :=
    {| environment := environment this;
       base :=
         if bool_decide (environment this = Str ENVIRONMENT.development) then
           Some "dist"
         else if bool_decide (environment this = Str ENVIRONMENT.staging) then
           Some ""
         else if bool_decide (environment this = Str ENVIRONMENT.production) then
           Some ""
         else if bool_decide (environment this = Str ENVIRONMENT.test) then
           Some "dist"
         else base this |} in
  let path :=
    cwd +:+ "/" +:+ ToString (base this) +:+ "/env/" +:+
    Value_text (environment this) +:+ ".env" in
  (this,
   throw_when (negb (existsSync (Some path)))
     new_Error (".env file not found on " +:+ path) ;;;
   Return ()).

(** The static fields once the module has run
    [EnvironmentConfiguration.load()]. *)
Definition EnvironmentConfiguration_loaded : EnvironmentConfiguration :=
  (load EnvironmentConfiguration_init).1.

(** *** The constants of the module *)

Definition authorized : Completion string :=
  (λ value : JSValue,
     throw_when (negb (truthy value))
       new_Error "AUTHORIZED not found. Please fill this value in your .env file to indicate allowed hosts." ;;;
     Return (ToString value))
  (process_env !! "AUTHORIZED").

(** The default [CONTENT_MIME_TYPE['application/json']] names an own
    member and is read as such. *)
Definition contentType : Completion string :=
  (λ value : JSValue,
     throw_when (truthy value &&
                 negb (truthy_value (get CONTENT_MIME_TYPE (ToString value))))
       new_Error ("CONTENT_TYPE bad value. Supported Content-Type must be one of "
                  +:+ join "," (enum_list CONTENT_MIME_TYPE)) ;;;
     Return (or_else value
               (ToString (member CONTENT_MIME_TYPE "application/json"))))
  (process_env !! "CONTENT_TYPE").

Definition env : Value := environment EnvironmentConfiguration_loaded.

Definition jwtExpirationInterval : Completion Number :=
  (λ value : JSValue,
     throw_when (negb (truthy value))
       new_Error "JWT_EXPIRATION_MINUTES not found. Please fill this value in your .env file to indicate the life duration of JSON web token." ;;;
     throw_when (isNaN (parseInt value))
       new_Error "JWT_EXPIRATION_MINUTES bad value. Expiration value must be a duration expressed as a number" ;;;
     Return (parseInt value))
  (process_env !! "JWT_EXPIRATION_MINUTES").

Definition jwtSecret : Completion string :=
  (λ value : JSValue,
     throw_when (negb (truthy value))
       new_Error "JWT_SECRET not found. Please fill this value in your .env file to strengthen the encryption." ;;;
     Return (ToString value))
  (process_env !! "JWT_SECRET").

Definition logs : Logs.t :=
  {| Logs.token :=
       if bool_decide (environment EnvironmentConfiguration_loaded = Str "production")
       then "combined"
       else or_else (process_env !! "LOGS_MORGAN_TOKEN") "dev";
     Logs.path :=
       cwd +:+ "/" +:+ ToString (base EnvironmentConfiguration_loaded) +:+ "/"
       +:+ or_else (process_env !! "LOGS_PATH") "logs" |}.

Definition port : Completion JSValue :=
  (λ value : JSValue,
     throw_when (truthy value && isNaN (parseInt value))
       new_Error "PORT bad value. Port value must be a number" ;;;
     Return value)
  (process_env !! "PORT").

Definition resize : Resize.t :=
  {| Resize.isActive :=
       truthy_number (parseInt (process_env !! "RESIZE_IS_ACTIVE")) || false;
     Resize.destinations :=
       {| Resize.master := or_else (process_env !! "RESIZE_PATH_MASTER") "master-copy";
          Resize.scale := or_else (process_env !! "RESIZE_PATH_SCALE") "rescale" |};
     Resize.sizes :=
       {| Resize.xs := number_or (parseInt (process_env !! "RESIZE_SIZE_XS")) 280;
          Resize.sm := number_or (parseInt (process_env !! "RESIZE_SIZE_SM")) 320;
          Resize.md := number_or (parseInt (process_env !! "RESIZE_SIZE_MD")) 768;
          Resize.lg := number_or (parseInt (process_env !! "RESIZE_SIZE_LG")) 1024;
          Resize.xl := number_or (parseInt (process_env !! "RESIZE_SIZE_XL")) 1366 |} |}.

Definition ssl : Completion Ssl.t :=
  (λ isActive key cert : JSValue,
     let is' := truthy_number (parseInt isActive) in
     throw_when (is' && negb (existsSync key))
       new_Error "HTTPS_KEY bad value or private key not found. Please check your .env file configuration." ;;;
     throw_when (is' && negb (existsSync cert))
       new_Error "HTTPS_CERT bad value or SSL certificate not found. Please check your .env file configuration." ;;;
     Return {| Ssl.isActive := is';
               Ssl.key := if is' then or_null key else None;
               Ssl.cert := if is' then or_null cert else None |})
  (process_env !! "HTTPS_IS_ACTIVE") (process_env !! "HTTPS_KEY")
  (process_env !! "HTTPS_CERT").

(** The reducer shared by [typeormParams] and [uploadParams]:
    [acc[current] = process.env[current]]. *)
Definition copy_key (acc : gmap string string) (current : string)
  : gmap string string :=
  match process_env !! current with
  | Some v => <[current := v]> acc
  | None => acc
  end.

Definition typeormParams : gmap string string :=
  foldl copy_key ∅
    (filter (λ key, lastIndexOf key "TYPEORM" ≠ -1) (Object_keys process_env)).

Definition typeorm : Completion Typeorm.t :=
  (λ (args : gmap string string) (environment : Value),
     throw_when (negb (truthy (args !! "TYPEORM_TYPE")))
       new_Error "TYPEORM_TYPE not found. Please fill it in your .env file to define the database engine type." ;;;
     throw_when (negb (truthy (args !! "TYPEORM_PORT")))
       new_Error "TYPEORM_PORT not found. Please fill it in your .env file to define the database server port." ;;;
     throw_when (negb (truthy (args !! "TYPEORM_HOST")))
       new_Error "TYPEORM_HOST not found. Please fill it in your .env file to define the database server host." ;;;
     throw_when (negb (truthy (args !! "TYPEORM_DB")))
       new_Error "TYPEORM_DB not found. Please fill it in your .env file to define the targeted database." ;;;
     throw_when (negb (truthy (args !! "TYPEORM_USER")))
       new_Error "TYPEORM_USER not found. Please fill it in your .env file to define the user of the database." ;;;
     throw_when (negb (truthy (args !! "TYPEORM_PWD")) &&
                 bool_decide (environment ≠ Str ENVIRONMENT.test))
       new_Error "TYPEORM_PWD not found. Please fill it in your .env file to define the password of the database." ;;;
     Return
       {| Typeorm.type := process_env !! "TYPEORM_TYPE";
          Typeorm.name := or_else (process_env !! "TYPEORM_NAME") "default";
          Typeorm.port := process_env !! "TYPEORM_PORT";
          Typeorm.host := process_env !! "TYPEORM_HOST";
          Typeorm.database := process_env !! "TYPEORM_DB";
          Typeorm.user := process_env !! "TYPEORM_USER";
          Typeorm.pwd := process_env !! "TYPEORM_PWD";
          Typeorm.sync :=
            if bool_decide (environment = Str ENVIRONMENT.production) then false
            else truthy (process_env !! "TYPEORM_SYNC");
          Typeorm.log := truthy (process_env !! "TYPEORM_LOG");
          Typeorm.entities :=
            cwd +:+ "/" +:+ ToString (base EnvironmentConfiguration_loaded)
            +:+ "/api/models/**/*.js";
          Typeorm.migrations :=
            cwd +:+ "/" +:+ ToString (base EnvironmentConfiguration_loaded)
            +:+ "/migrations/**/*.js";
          Typeorm.subscribers :=
            cwd +:+ "/" +:+ ToString (base EnvironmentConfiguration_loaded)
            +:+ "/api/subscribers/**/*.subscriber.js" |})
  typeormParams env.

Definition uploadParams : gmap string string :=
  foldl copy_key ∅
    (filter (λ key, lastIndexOf key "UPLOAD" ≠ -1) (Object_keys process_env)).

(** A token that names no category is dropped by the filter.  What [list]
    would make of a member that [mimes] inherits from [Object.prototype]
    cannot be read from the sources; such a token is dropped like the
    others. *)
Definition upload : Upload.t :=
  (λ args : gmap string string,
     let mimes : list (string * Enum) :=
       [("AUDIO", AUDIO_MIME_TYPE); ("ARCHIVE", ARCHIVE_MIME_TYPE);
        ("DOCUMENT", DOCUMENT_MIME_TYPE); ("IMAGE", IMAGE_MIME_TYPE);
        ("VIDEO", VIDEO_MIME_TYPE)] in
     let input :=
       if truthy (args !! "UPLOAD_WILDCARDS")
       then split "," (ToString (args !! "UPLOAD_WILDCARDS"))
       else keys mimes in
     let wildcards :=
       foldl (λ acc current, acc ++ enum_list current) []
         (omap (λ key, member mimes key)
            (filter (λ key, is_Some (member mimes key)) input)) in
     {| Upload.destination :=
          cwd +:+ "/" +:+ ToString (base EnvironmentConfiguration_loaded)
          +:+ "/" +:+ or_else (args !! "UPLOAD_PATH") "public";
        Upload.filesize :=
          number_or (parseInt (args !! "UPLOAD_MAX_FILE_SIZE")) 1000000;
        Upload.wildcards := wildcards;
        Upload.maxFiles :=
          number_or (parseInt (args !! "UPLOAD_MAX_FILES")) 5 |})
  uploadParams.

Definition version : string := or_else (process_env !! "API_VERSION") "v1".

(** The module as a whole: its statements in order, the first [Throw]
    ending the evaluation, and the object it exports otherwise. *)
Definition exports : Completion Exports.t :=
  _ ← (load EnvironmentConfiguration_init).2;
  authorized' ← authorized;
  contentType' ← contentType;
  jwtExpirationInterval' ← jwtExpirationInterval;
  jwtSecret' ← jwtSecret;
  port' ← port;
  ssl' ← ssl;
  typeorm' ← typeorm;
  Return {| Exports.env := env;
            Exports.port := port';
            Exports.authorized := authorized';
            Exports.contentType := contentType';
            Exports.ssl := ssl';
            Exports.jwtSecret := jwtSecret';
            Exports.jwtExpirationInterval := jwtExpirationInterval';
            Exports.version := version;
            Exports.logs := logs;
            Exports.typeorm := typeorm';
            Exports.upload := upload;
            Exports.resize := resize |}.

(** ** Properties of the primitives *)

Lemma app_String (c : ascii) (s t : string) :
  String c s +:+ t = String c (s +:+ t).
Proof. reflexivity. Qed.

Lemma app_empty_l (t : string) : "" +:+ t = t.
Proof. reflexivity. Qed.

Lemma occurs_at_start_spec (pat s : string) :
  occurs_at_start pat s = true ↔ ∃ post, s = pat +:+ post.
Proof.
  revert s. induction pat as [|p pat IH]; intros s; simpl.
  - split; [intros _; by exists s | done].
  - destruct s as [|c s].
    + split; [done | intros [post H]; discriminate H].
    + rewrite andb_true_iff, bool_decide_eq_true, IH. split.
      * intros [-> [post ->]]. by exists post.
      * intros [post H]. rewrite app_String in H.
        injection H as -> ->. eauto.
Qed.

Lemma lastIndexOf_from_range (s pat : string) (i : Z) :
  lastIndexOf_from s pat i = -1 ∨ i ≤ lastIndexOf_from s pat i.
Proof.
  revert i. induction s as [|c s IH]; intros i; simpl.
  - destruct (occurs_at_start pat ""); lia.
  - destruct (IH (i + 1)) as [E | E].
    + rewrite E. simpl. destruct (occurs_at_start pat (String c s)); lia.
    + destruct (Z.eqb_spec (lastIndexOf_from s pat (i + 1)) (-1)); [|lia].
      destruct (occurs_at_start pat (String c s)); lia.
Qed.

(** [lastIndexOf] finds an occurrence exactly when there is one, anywhere
    in the string. *)
Lemma lastIndexOf_from_found (s pat : string) (i : Z) :
  0 ≤ i →
  lastIndexOf_from s pat i ≠ -1 ↔ ∃ pre post, s = pre +:+ pat +:+ post.
Proof.
  revert i. induction s as [|c s IH]; intros i Hi; simpl.
  - destruct (occurs_at_start pat "") eqn:E.
    + apply occurs_at_start_spec in E as [post E].
      split; [intros _; by exists "", post | lia].
    + split; [lia |]. intros (pre & post & H).
      destruct pre; [|discriminate H]. rewrite app_empty_l in H.
      assert (occurs_at_start pat "" = true) as E'
        by (apply occurs_at_start_spec; eauto).
      congruence.
  - specialize (IH (i + 1) ltac:(lia)).
    destruct (Z.eqb_spec (lastIndexOf_from s pat (i + 1)) (-1)) as [E | E].
    + destruct (occurs_at_start pat (String c s)) eqn:E'.
      * apply occurs_at_start_spec in E' as [post E'].
        split; [intros _; by exists "", post | lia].
      * split; [lia |]. intros (pre & post & H). destruct pre as [|c' pre].
        -- rewrite app_empty_l in H.
           assert (occurs_at_start pat (String c s) = true) as E''
             by (apply occurs_at_start_spec; eauto).
           congruence.
        -- rewrite app_String in H. injection H as -> H.
           destruct IH as [_ IH]. exfalso. apply IH; eauto.
    + split; [|done]. intros _. destruct IH as [IH _].
      destruct (IH E) as (pre & post & ->). by exists (String c pre), post.
Qed.

Lemma lastIndexOf_found (s pat : string) :
  lastIndexOf s pat ≠ -1 ↔ ∃ pre post, s = pre +:+ pat +:+ post.
Proof. by apply lastIndexOf_from_found. Qed.

Lemma indexOf_from_absent (array : list string) (x : string) (i : Z) :
  x ∉ array → indexOf_from array x i = -1.
Proof.
  revert i. induction array as [|y rest IH]; intros i H; simpl; [done|].
  apply not_elem_of_cons in H as [H1 H2].
  rewrite bool_decide_eq_false_2 by done. by apply IH.
Qed.

Lemma indexOf_from_first (pre post : list string) (x : string) (i : Z) :
  x ∉ pre → indexOf_from (pre ++ x :: post) x i = i + Z.of_nat (length pre).
Proof.
  revert i. induction pre as [|y pre IH]; intros i H; simpl.
  - rewrite bool_decide_eq_true_2 by done. lia.
  - apply not_elem_of_cons in H as [H1 H2].
    rewrite bool_decide_eq_false_2 by done. rewrite IH by done. lia.
Qed.

Lemma at_index_after (pre post : list string) (x v : string) :
  at_index (pre ++ x :: v :: post) (Z.of_nat (length pre) + 1) = Some v.
Proof.
  unfold at_index.
  destruct (Z.ltb_spec (Z.of_nat (length pre) + 1) 0); [lia|].
  replace (Z.to_nat (Z.of_nat (length pre) + 1)) with (length pre + 1)%nat
    by lia.
  rewrite lookup_app_r by lia.
  replace (length pre + 1 - length pre)%nat with 1%nat by lia. done.
Qed.

Lemma at_index_past_end (pre : list string) (x : string) :
  at_index (pre ++ [x]) (Z.of_nat (length pre) + 1) = None.
Proof.
  unfold at_index.
  destruct (Z.ltb_spec (Z.of_nat (length pre) + 1) 0); [lia|].
  apply lookup_ge_None_2. rewrite length_app. simpl. lia.
Qed.

(** *** [parseInt] *)

Lemma parse_digits_started (s : string) (n : Z) :
  is_Some (parse_digits s (Some n)).
Proof.
  revert n. induction s as [|c s IH]; intros n; simpl; [done|].
  destruct (digit_value c); [apply IH | done].
Qed.

(** [parseInt] answers [NaN] exactly when, white space and one sign
    skipped, the string does not start with a decimal digit. *)
Lemma parseInt_NaN_iff (value : JSValue) :
  isNaN (parseInt value) = true ↔
  match (take_sign (trim_start (ToString value))).2 with
  | String c _ => digit_value c = None
  | "" => True
  end.
Proof.
  unfold parseInt.
  destruct (take_sign (trim_start (ToString value))) as [sign [|c r]];
    simpl; [done|].
  destruct (digit_value c) as [d|]; [|done].
  by destruct (parse_digits_started r (10 * 0 + d)) as [n ->].
Qed.

Lemma parseInt_undefined : parseInt None = NaN.
Proof. reflexivity. Qed.

(** A value that parses to a number is a string that is not empty. *)
Lemma parseInt_Int_truthy (value : JSValue) (z : Z) :
  parseInt value = Int z → truthy value = true.
Proof. by destruct value as [[|c s]|]. Qed.

(** *** The sub-mappings of [process.env] *)

Lemma foldl_copy_key (l : list string) (acc : gmap string string) (k : string) :
  foldl copy_key acc l !! k =
  if bool_decide (k ∈ l) then
    match process_env !! k with Some v => Some v | None => acc !! k end
  else acc !! k.
Proof.
  revert acc. induction l as [|x l IH]; intros acc; simpl; [done|].
  rewrite IH. unfold copy_key.
  destruct (decide (k = x)) as [-> | Hne].
  - rewrite (bool_decide_eq_true_2 (x ∈ x :: l)) by apply list_elem_of_here.
    destruct (process_env !! x) eqn:E.
    + rewrite lookup_insert_eq. by case_bool_decide.
    + by case_bool_decide.
  - assert (k ∈ x :: l ↔ k ∈ l) as Hiff
      by (rewrite elem_of_cons; split; [intros [?|?]; done | auto]).
    rewrite (bool_decide_ext _ _ Hiff).
    destruct (process_env !! x); [|done].
    by rewrite lookup_insert_ne.
Qed.

Lemma elem_of_Object_keys (m : gmap string string) (k : string) :
  k ∈ Object_keys m ↔ is_Some (m !! k).
Proof.
  unfold Object_keys. rewrite list_elem_of_fmap. split.
  - intros ([k' v] & -> & H). apply elem_of_map_to_list in H. by exists v.
  - intros [v H]. exists (k, v). split; [done|]. by apply elem_of_map_to_list.
Qed.

(** The keys picked by [lastIndexOf(pat) !== -1] keep their values; every
    other key is absent. *)
Lemma params_lookup (pat k : string) :
  foldl copy_key ∅
    (filter (λ key, lastIndexOf key pat ≠ -1) (Object_keys process_env)) !! k =
  if bool_decide (lastIndexOf k pat ≠ -1) then process_env !! k else None.
Proof.
  rewrite foldl_copy_key, lookup_empty.
  case_bool_decide as H1.
  - apply list_elem_of_filter in H1 as [H1 H2].
    rewrite bool_decide_eq_true_2 by done. by destruct (process_env !! k).
  - case_bool_decide as H2; [|done].
    destruct (process_env !! k) eqn:E; [|done].
    exfalso. apply H1. apply list_elem_of_filter. split; [done|].
    apply elem_of_Object_keys. by rewrite E.
Qed.

(** A key that starts with the section's token is in the sub-mapping,
    with the value [process.env] gives it. *)
Lemma typeormParams_prefixed (key : string) :
  occurs_at_start "TYPEORM" key = true →
  typeormParams !! key = process_env !! key.
Proof.
  intros [rest ->]%occurs_at_start_spec.
  unfold typeormParams. rewrite params_lookup.
  rewrite bool_decide_eq_true_2; [done|].
  apply lastIndexOf_found. by exists "", rest.
Qed.

Lemma uploadParams_prefixed (key : string) :
  occurs_at_start "UPLOAD" key = true →
  uploadParams !! key = process_env !! key.
Proof.
  intros [rest ->]%occurs_at_start_spec.
  unfold uploadParams. rewrite params_lookup.
  rewrite bool_decide_eq_true_2; [done|].
  apply lastIndexOf_found. by exists "", rest.
Qed.

(** ** The environment selector *)

(** [ENVIRONMENT[name] || ENVIRONMENT.development] is [name] for the four
    variants, the inherited member for a name of [Object.prototype], and
    [development] for every other name. *)
Lemma ENVIRONMENT_or_development (name : string) :
  value_or (get ENVIRONMENT.members name) (Str ENVIRONMENT.development) =
  if bool_decide (name ∈ keys ENVIRONMENT.members) then Str name
  else if bool_decide (name ∈ Object_prototype) then Inherited name
  else Str ENVIRONMENT.development.
Proof.
  destruct (decide (name = "development")) as [-> | H1]; [done|].
  destruct (decide (name = "staging")) as [-> | H2]; [done|].
  destruct (decide (name = "production")) as [-> | H3]; [done|].
  destruct (decide (name = "test")) as [-> | H4]; [done|].
  unfold get, keys. simpl.
  rewrite !(bool_decide_eq_false_2 (_ = name)) by done.
  rewrite (bool_decide_eq_false_2 (name ∈ _ :: _ :: _ :: _ :: [])).
  - by case_bool_decide.
  - rewrite !elem_of_cons, elem_of_nil. intros [?|[?|[?|[?|[]]]]]; done.
Qed.

(** The fields left by [load] when the first [--env] of the arguments is
    followed by [name]. *)
Lemma load_environment_flag (pre : list string) (name : JSValue)
    (rest : list string) :
  "--env" ∉ pre →
  argv = pre ++ "--env" :: rest →
  at_index argv (Z.of_nat (length pre) + 1) = name →
  environment (load EnvironmentConfiguration_init).1 =
  value_or (get ENVIRONMENT.members (ToString name))
    (Str ENVIRONMENT.development).
Proof.
  intros Hpre Hargv Hname. unfold load, indexOf. simpl.
  rewrite Hargv in *. rewrite indexOf_from_first by done.
  rewrite bool_decide_eq_true_2 by lia. simpl.
  by rewrite Z.add_0_l, Hname.
Qed.

Lemma load_environment_default :
  "--env" ∉ argv →
  environment (load EnvironmentConfiguration_init).1 =
  Str ENVIRONMENT.development.
Proof.
  intros H. unfold load, indexOf. simpl.
  rewrite indexOf_from_absent by done.
  by rewrite bool_decide_eq_false_2 by (intros E; by apply E).
Qed.

(** Arguments that hold [--env] split at its first occurrence, the one
    [indexOf] finds. *)
Lemma first_env_flag :
  "--env" ∈ argv → ∃ pre rest, argv = pre ++ "--env" :: rest ∧ "--env" ∉ pre.
Proof. apply list_elem_of_split_l. Qed.

(** Whatever the arguments, [load] leaves one of the four variants or a
    member inherited from [Object.prototype]. *)
Lemma load_environment_variant :
  (∃ e, environment (load EnvironmentConfiguration_init).1 = Str e ∧
        e ∈ keys ENVIRONMENT.members) ∨
  (∃ name, environment (load EnvironmentConfiguration_init).1 = Inherited name ∧
           name ∈ Object_prototype).
Proof.
  unfold load. cbn [fst environment]. case_bool_decide; cbn [environment].
  - rewrite ENVIRONMENT_or_development.
    case_bool_decide; [left; by eexists|].
    case_bool_decide; [right; by eexists|].
    left. eexists. split; [done | apply list_elem_of_here].
  - left. eexists. split; [done | apply list_elem_of_here].
Qed.

(** The [switch] of [load]: the base path as a function of the
    environment it has selected. *)
Lemma load_base :
  base (load EnvironmentConfiguration_init).1 =
  let environment := environment (load EnvironmentConfiguration_init).1 in
  if bool_decide (environment = Str ENVIRONMENT.development) then Some "dist"
  else if bool_decide (environment = Str ENVIRONMENT.staging) then Some ""
  else if bool_decide (environment = Str ENVIRONMENT.production) then Some ""
  else if bool_decide (environment = Str ENVIRONMENT.test) then Some "dist"
  else None.
Proof.
  unfold load. cbn [fst environment base].
  by destruct (bool_decide (indexOf argv "--env" ≠ -1)).
Qed.

(** The environment [load] selects, for every shape of the arguments:
    after the first [--env], a variant gives itself, a name of
    [Object.prototype] the member inherited under that name, and any
    other name [development]; so do a missing name and a missing [--env]. *)
Lemma load_environment_selected (pre post : list string) (name : string) :
  "--env" ∉ pre →
  (argv = pre ++ "--env" :: name :: post →
     env =
     if bool_decide (name ∈ keys ENVIRONMENT.members) then Str name
     else if bool_decide (name ∈ Object_prototype) then Inherited name
     else Str ENVIRONMENT.development) ∧
  (argv = pre ++ ["--env"] → env = Str ENVIRONMENT.development) ∧
  (argv = pre → env = Str ENVIRONMENT.development).
Proof.
  intros Hpre. unfold env, EnvironmentConfiguration_loaded.
  split; [|split].
  - intros Hargv.
    rewrite (load_environment_flag pre (Some name) (name :: post))
      by (try done; rewrite Hargv; apply at_index_after).
    by rewrite ENVIRONMENT_or_development.
  - intros Hargv.
    rewrite (load_environment_flag pre None [])
      by (try done; rewrite Hargv; apply at_index_past_end).
    done.
  - intros Hargv. apply load_environment_default. by rewrite Hargv.
Qed.

(** The base path once [load] has run, by the environment it selected:
    [dist] under development and test, empty under staging and
    production, and still [undefined] when the environment is an
    inherited member, which no [case] of the [switch] matches. *)
Lemma loaded_base :
  base EnvironmentConfiguration_loaded =
  match env with
  | Str e =>
      Some (if bool_decide (e ∈ [ENVIRONMENT.development; ENVIRONMENT.test])
            then "dist" else "")
  | Inherited _ => None
  end.
Proof.
  pose proof load_environment_variant as H. pose proof load_base as Hb.
  unfold env, EnvironmentConfiguration_loaded. cbv zeta in *.
  destruct (load EnvironmentConfiguration_init).1 as [e b].
  cbn [environment base] in *. subst b.
  destruct H as [(e' & -> & H) | (name & -> & H)]; [|done].
  unfold keys in H. cbn [fmap list_fmap ENVIRONMENT.members fst] in H.
  rewrite !elem_of_cons, elem_of_nil in H.
  by destruct H as [->|[->|[->|[->|[]]]]].
Qed.

(** ** The database section *)

(** The database section resolves as soon as its five required keys are
    filled in and the password is filled in or the environment is test. *)
Lemma typeorm_resolves :
  truthy (process_env !! "TYPEORM_TYPE") = true →
  truthy (process_env !! "TYPEORM_PORT") = true →
  truthy (process_env !! "TYPEORM_HOST") = true →
  truthy (process_env !! "TYPEORM_DB") = true →
  truthy (process_env !! "TYPEORM_USER") = true →
  truthy (process_env !! "TYPEORM_PWD") = true ∨ env = Str ENVIRONMENT.test →
  ∃ section, typeorm = Return section.
Proof.
  intros Htype Hport Hhost Hdb Huser Hpwd. unfold typeorm. cbv beta.
  rewrite !typeormParams_prefixed by reflexivity.
  rewrite Htype, Hport, Hhost, Hdb, Huser. simpl negb. cbv iota.
  destruct Hpwd as [-> | ->].
  - simpl. by eexists.
  - rewrite bool_decide_eq_false_2 by (intros E; by apply E).
    rewrite andb_false_r. by eexists.
Qed.

(** C5.  With the five other required database keys filled in and
    TYPEORM_PWD absent or empty, the database section resolves under
    test, its password being the absent or empty raw value, and fails
    under every other environment with the message that TYPEORM_PWD was
    not found. *)
Theorem typeorm_password_required_unless_test :
  truthy (process_env !! "TYPEORM_TYPE") = true →
  truthy (process_env !! "TYPEORM_PORT") = true →
  truthy (process_env !! "TYPEORM_HOST") = true →
  truthy (process_env !! "TYPEORM_DB") = true →
  truthy (process_env !! "TYPEORM_USER") = true →
  truthy (process_env !! "TYPEORM_PWD") = false →
  (env = Str ENVIRONMENT.test →
     ∃ section, typeorm = Return section ∧
       Typeorm.pwd section = process_env !! "TYPEORM_PWD" ∧
       truthy (Typeorm.pwd section) = false) ∧
  (env ≠ Str ENVIRONMENT.test →
     typeorm = Throw "TYPEORM_PWD not found. Please fill it in your .env file to define the password of the database.").
Proof.
  intros Htype Hport Hhost Hdb Huser Hpwd. unfold typeorm. cbv beta.
  rewrite !typeormParams_prefixed by reflexivity.
  rewrite Htype, Hport, Hhost, Hdb, Huser, Hpwd. simpl negb. cbv iota.
  split.
  - intros ->. rewrite bool_decide_eq_false_2 by (intros E; by apply E).
    simpl andb. cbv iota. eexists. split; [reflexivity|]. by simpl.
  - intros Hne. by rewrite bool_decide_eq_true_2 by done.
Qed.

(** C10.  Whenever the database section resolves, its sync flag is false
    under production whatever TYPEORM_SYNC holds, and under every other
    environment it is the truthiness of the raw TYPEORM_SYNC. *)
Theorem typeorm_sync_flag (section : Typeorm.t) :
  typeorm = Return section →
  (env = Str ENVIRONMENT.production → Typeorm.sync section = false) ∧
  (env ≠ Str ENVIRONMENT.production →
     Typeorm.sync section = truthy (process_env !! "TYPEORM_SYNC")).
Proof.
  unfold typeorm. cbv beta.
  repeat (match goal with
          | |- (if ?c then Throw _ else _) = _ → _ =>
              destruct c; [discriminate|]
          end).
  intros [= <-]. simpl. split.
  - intros ->. by rewrite bool_decide_eq_true_2.
  - intros Hne. by rewrite bool_decide_eq_false_2.
Qed.

(** ** Grouped keys *)

(** C3, as the code has it.  The database sub-mapping holds exactly the
    raw keys in which TYPEORM occurs, at the start or anywhere else, each
    with its raw value; the upload sub-mapping holds exactly those in
    which UPLOAD occurs.  A key that starts with the token is therefore
    carried over whatever follows the token, and a key without the token
    is left out. *)
Theorem grouped_key_extraction :
  (∀ key value : string,
     typeormParams !! key = Some value ↔
     process_env !! key = Some value ∧
     ∃ pre post, key = pre +:+ "TYPEORM" +:+ post) ∧
  (∀ key value : string,
     uploadParams !! key = Some value ↔
     process_env !! key = Some value ∧
     ∃ pre post, key = pre +:+ "UPLOAD" +:+ post) ∧
  (∀ rest : string,
     typeormParams !! ("TYPEORM" +:+ rest) =
     process_env !! ("TYPEORM" +:+ rest)) ∧
  (∀ rest : string,
     uploadParams !! ("UPLOAD" +:+ rest) =
     process_env !! ("UPLOAD" +:+ rest)).
Proof.
  assert (∀ pat key value,
    foldl copy_key ∅
      (filter (λ key, lastIndexOf key pat ≠ -1) (Object_keys process_env))
      !! key = Some value ↔
    process_env !! key = Some value ∧
    ∃ pre post, key = pre +:+ pat +:+ post) as H.
  { intros pat key value. rewrite params_lookup, <- lastIndexOf_found.
    case_bool_decide as E; split.
    - intros Hvalue. by split.
    - by intros [Hvalue _].
    - discriminate.
    - by intros [_ Hfound]. }
  split; [apply H|]. split; [apply H|]. split; intros rest.
  - apply typeormParams_prefixed, occurs_at_start_spec. by exists rest.
  - apply uploadParams_prefixed, occurs_at_start_spec. by exists rest.
Qed.

(** ** Boolean flags *)

Lemma resize_isActive :
  Resize.isActive resize =
  truthy_number (parseInt (process_env !! "RESIZE_IS_ACTIVE")).
Proof. apply orb_false_r. Qed.

Lemma ssl_isActive (section : Ssl.t) :
  ssl = Return section →
  Ssl.isActive section =
  truthy_number (parseInt (process_env !! "HTTPS_IS_ACTIVE")).
Proof.
  unfold ssl. cbv beta zeta.
  repeat (match goal with
          | |- (if ?c then Throw _ else _) = _ → _ =>
              destruct c; [discriminate|]
          end).
  by intros [= <-].
Qed.

(** The log flag of the database section is the truthiness of the raw
    string, under every environment. *)
Lemma typeorm_log_flag (section : Typeorm.t) :
  typeorm = Return section →
  Typeorm.log section = truthy (process_env !! "TYPEORM_LOG").
Proof.
  unfold typeorm. cbv beta.
  repeat (match goal with
          | |- (if ?c then Throw _ else _) = _ → _ =>
              destruct c; [discriminate|]
          end).
  by intros [= <-].
Qed.

(** ** TLS *)

(** C8.  The TLS section fails exactly when the HTTPS flag parses to a
    number other than zero and the key path or the certificate path does
    not exist, with the message of the first of the two that is missing.
    When the flag does not parse to such a number, and so when it is
    absent or parses to zero, the section is inactive with both paths
    null, whatever the raw paths and whatever exists on disk. *)
Theorem ssl_dependent_resources :
  let active := truthy_number (parseInt (process_env !! "HTTPS_IS_ACTIVE")) in
  let key := process_env !! "HTTPS_KEY" in
  let cert := process_env !! "HTTPS_CERT" in
  ((∃ message, ssl = Throw message) ↔
   active = true ∧ (existsSync key = false ∨ existsSync cert = false)) ∧
  (active = true → existsSync key = false →
     ssl = Throw "HTTPS_KEY bad value or private key not found. Please check your .env file configuration.") ∧
  (active = true → existsSync key = true → existsSync cert = false →
     ssl = Throw "HTTPS_CERT bad value or SSL certificate not found. Please check your .env file configuration.") ∧
  (active = false →
     ssl = Return {| Ssl.isActive := false; Ssl.key := None; Ssl.cert := None |}) ∧
  (process_env !! "HTTPS_IS_ACTIVE" = None ∨
   parseInt (process_env !! "HTTPS_IS_ACTIVE") = Int 0 → active = false).
Proof.
  cbv zeta. unfold ssl. cbv beta zeta.
  destruct (truthy_number (parseInt (process_env !! "HTTPS_IS_ACTIVE")))
    eqn:Hactive;
    destruct (existsSync (process_env !! "HTTPS_KEY")) eqn:Hkey;
    destruct (existsSync (process_env !! "HTTPS_CERT")) eqn:Hcert;
    simpl; repeat split; try done; eauto.
  all: try (intros [E | E]; rewrite E in Hactive; discriminate Hactive).
  all: try (intros [_ [E | E]]; discriminate E).
  all: try (intros [E _]; discriminate E).
  all: match goal with
       | H : ∃ _, Return _ = Throw _ |- _ => destruct H as [? H]; discriminate H
       end.
Qed.

(** ** Content type *)

Lemma member_None {V} (table : list (string * V)) (key : string) :
  key ∉ keys table → member table key = None.
Proof.
  unfold keys. induction table as [|[k v] table IH]; simpl; [done|].
  intros [H1 H2]%not_elem_of_cons.
  rewrite bool_decide_eq_false_2 by done. by apply IH.
Qed.

(** How [contentType] resolves, for every raw value: a value of the
    vocabulary to itself; an absent or empty one to application/json; a
    name of [Object.prototype] to itself as well, the lookup finding the
    inherited member; any other value fails with the message that lists
    the supported values. *)
Lemma contentType_cases :
  (∀ value : string,
     process_env !! "CONTENT_TYPE" = Some value →
     value ≠ "" → value ∉ keys CONTENT_MIME_TYPE →
     value ∉ Object_prototype →
     contentType =
     Throw ("CONTENT_TYPE bad value. Supported Content-Type must be one of "
            +:+ join "," (enum_list CONTENT_MIME_TYPE))) ∧
  (truthy (process_env !! "CONTENT_TYPE") = false →
     contentType = Return "application/json") ∧
  (∀ value : string,
     process_env !! "CONTENT_TYPE" = Some value →
     value ∈ keys CONTENT_MIME_TYPE → contentType = Return value) ∧
  (∀ value : string,
     process_env !! "CONTENT_TYPE" = Some value →
     value ∈ Object_prototype → contentType = Return value).
Proof.
  unfold contentType. cbv beta. split; [|split; [|split]].
  - intros value -> Hne Hout Hown. cbn [ToString]. unfold get.
    rewrite (member_None _ _ Hout), bool_decide_eq_false_2 by done.
    by destruct value.
  - by destruct (process_env !! "CONTENT_TYPE") as [[|c value]|].
  - intros value -> Hin. unfold keys in Hin. simpl in Hin.
    rewrite !elem_of_cons, elem_of_nil in Hin.
    by destruct Hin as [->|[->|[->|[]]]].
  - intros value -> Hin. unfold Object_prototype in Hin.
    rewrite !elem_of_cons, elem_of_nil in Hin.
    repeat (destruct Hin as [-> | Hin]; [done|]). done.
Qed.

(** ** Upload *)

Lemma foldl_append_join {A B} (f : B → list A) (l : list B) (acc : list A) :
  foldl (λ acc current, acc ++ f current) acc l = acc ++ mjoin (f <$> l).
Proof.
  revert acc. induction l as [|x l IH]; intros acc; simpl.
  - by rewrite app_nil_r.
  - by rewrite IH, <- app_assoc.
Qed.

Lemma omap_filter_is_Some {A B} (f : A → option B) (l : list A) :
  omap f (filter (λ x, is_Some (f x)) l) = omap f l.
Proof.
  induction l as [|x l IH]; [done|].
  rewrite filter_cons. destruct (decide (is_Some (f x))) as [[y E]|E].
  - cbn [omap list_omap] in *. by rewrite E, IH.
  - cbn [omap list_omap] in *. rewrite IH. destruct (f x) eqn:E'; [|done].
    exfalso. apply E. by eexists.
Qed.

(** C7.  The accepted MIME types are the arrays of the recognised
    categories of the input, one after the other, where the input is the
    comma-separated UPLOAD_WILDCARDS or, when that is absent or empty,
    the five categories; a token that names no category adds nothing, and
    [upload] never throws.  For IMAGE,BOGUS they are the array of the
    IMAGE category. *)
Theorem upload_wildcards_expansion :
  let mimes : list (string * Enum) :=
    [("AUDIO", AUDIO_MIME_TYPE); ("ARCHIVE", ARCHIVE_MIME_TYPE);
     ("DOCUMENT", DOCUMENT_MIME_TYPE); ("IMAGE", IMAGE_MIME_TYPE);
     ("VIDEO", VIDEO_MIME_TYPE)] in
  let input :=
    if truthy (process_env !! "UPLOAD_WILDCARDS")
    then split "," (ToString (process_env !! "UPLOAD_WILDCARDS"))
    else ["AUDIO"; "ARCHIVE"; "DOCUMENT"; "IMAGE"; "VIDEO"] in
  Upload.wildcards upload = mjoin (enum_list <$> omap (member mimes) input) ∧
  (∀ mime : string,
     mime ∈ Upload.wildcards upload ↔
     ∃ token table,
       token ∈ input ∧ member mimes token = Some table ∧
       mime ∈ enum_list table) ∧
  (process_env !! "UPLOAD_WILDCARDS" = Some "IMAGE,BOGUS" →
     Upload.wildcards upload = enum_list IMAGE_MIME_TYPE) ∧
  (truthy (process_env !! "UPLOAD_WILDCARDS") = false →
     Upload.wildcards upload =
     enum_list AUDIO_MIME_TYPE ++ enum_list ARCHIVE_MIME_TYPE ++
     enum_list DOCUMENT_MIME_TYPE ++ enum_list IMAGE_MIME_TYPE ++
     enum_list VIDEO_MIME_TYPE).
Proof.
  intros mimes input.
  assert (Upload.wildcards upload =
          mjoin (enum_list <$> omap (member mimes) input)) as E.
  { unfold upload. cbv beta zeta. cbn [Upload.wildcards].
    rewrite uploadParams_prefixed by reflexivity.
    by rewrite foldl_append_join, omap_filter_is_Some. }
  rewrite E. split; [done|]. split; [|split].
  - intros mime. rewrite list_elem_of_join. split.
    + intros (l & Hmime & Hl).
      apply list_elem_of_fmap in Hl as (table & -> & Htable).
      apply list_elem_of_omap in Htable as (token & Htoken & Hmember).
      by exists token, table.
    + intros (token & table & Htoken & Hmember & Hmime).
      exists (enum_list table). split; [done|].
      apply list_elem_of_fmap. exists table. split; [done|].
      apply list_elem_of_omap. by exists token.
  - intros Hraw. subst input. rewrite Hraw. simpl. by rewrite app_nil_r.
  - intros Hraw. subst input. rewrite Hraw. simpl. by rewrite app_nil_r.
Qed.

(** ** Numeric fields *)

Lemma number_or_defaulted (raw : JSValue) (d : Z) :
  defaulted raw d (number_or (parseInt raw) d).
Proof.
  repeat split.
  - by intros ->.
  - by destruct (parseInt raw).
  - by intros ->.
  - intros z -> Hz. simpl. by destruct (Z.eqb_spec z 0).
Qed.

(** C1, as the code has it.  JWT_EXPIRATION_MINUTES and PORT fail when
    they are filled in with a value that does not parse, and
    JWT_EXPIRATION_MINUTES also when it is absent or empty; a value that
    parses resolves, for the expiration to the parsed number and for the
    port to the raw string.  The five resize sizes, the upload file size
    and the upload file count never fail: each is the parsed number when
    the raw value parses to a number other than zero, and the sizes sm,
    md, lg and xl, the file size and the file count are their defaults
    when the raw value is absent, does not parse or parses to zero.  The
    value of the default of xs is not part of the statement. *)
Theorem numeric_coercion :
  let expiration := process_env !! "JWT_EXPIRATION_MINUTES" in
  let raw_port := process_env !! "PORT" in
  (truthy expiration = true → isNaN (parseInt expiration) = true →
     jwtExpirationInterval =
     Throw "JWT_EXPIRATION_MINUTES bad value. Expiration value must be a duration expressed as a number") ∧
  (truthy expiration = false →
     jwtExpirationInterval =
     Throw "JWT_EXPIRATION_MINUTES not found. Please fill this value in your .env file to indicate the life duration of JSON web token.") ∧
  (∀ z, parseInt expiration = Int z → jwtExpirationInterval = Return (Int z)) ∧
  (truthy raw_port = true → isNaN (parseInt raw_port) = true →
     port = Throw "PORT bad value. Port value must be a number") ∧
  (∀ z, parseInt raw_port = Int z → port = Return raw_port) ∧
  (∀ z, parseInt (process_env !! "RESIZE_SIZE_XS") = Int z → z ≠ 0 →
        Resize.xs (Resize.sizes resize) = z) ∧
  defaulted (process_env !! "RESIZE_SIZE_SM") 320
    (Resize.sm (Resize.sizes resize)) ∧
  defaulted (process_env !! "RESIZE_SIZE_MD") 768
    (Resize.md (Resize.sizes resize)) ∧
  defaulted (process_env !! "RESIZE_SIZE_LG") 1024
    (Resize.lg (Resize.sizes resize)) ∧
  defaulted (process_env !! "RESIZE_SIZE_XL") 1366
    (Resize.xl (Resize.sizes resize)) ∧
  defaulted (process_env !! "UPLOAD_MAX_FILE_SIZE") 1000000
    (Upload.filesize upload) ∧
  defaulted (process_env !! "UPLOAD_MAX_FILES") 5
    (Upload.maxFiles upload).
Proof.
  cbv zeta. unfold jwtExpirationInterval, port. cbv beta.
  split; [by intros -> ->|]. split; [by intros ->|].
  split; [intros z E; by rewrite (parseInt_Int_truthy _ _ E), E|].
  split; [by intros -> ->|].
  split; [intros z E; by rewrite (parseInt_Int_truthy _ _ E), E|].
  unfold resize, upload. cbv beta zeta.
  cbn [Resize.sizes Resize.xs Resize.sm Resize.md Resize.lg Resize.xl
       Upload.filesize Upload.maxFiles].
  rewrite !uploadParams_prefixed by reflexivity.
  split; [apply number_or_defaulted|].
  repeat split; apply number_or_defaulted.
Qed.

(** ** The .env file *)

Lemma load_completion :
  (load EnvironmentConfiguration_init).2 =
  let this := (load EnvironmentConfiguration_init).1 in
  let path :=
    cwd +:+ "/" +:+ ToString (base this) +:+ "/env/" +:+
    Value_text (environment this) +:+ ".env" in
  if negb (existsSync (Some path))
  then Throw (".env file not found on " +:+ path) else Return ().
Proof. reflexivity. Qed.

(** X1.  [load] throws, naming the path, exactly when the .env file it
    looks for is not on disk.  Under a variant the file is
    [<cwd>/dist/env/<environment>.env] for development and test and
    [<cwd>//env/<environment>.env] for staging and production; when the
    environment is a member inherited from [Object.prototype] the base is
    still [undefined] and the file is [<cwd>/undefined/env/<text>.env],
    [<text>] being how that member prints. *)
Theorem load_env_file :
  let completion path :=
    if on_disk path then Return ()
    else Throw (".env file not found on " +:+ path) in
  (∀ e, env = Str e →
     (load EnvironmentConfiguration_init).2 =
     completion
       (cwd +:+ "/" +:+
        (if bool_decide (e ∈ [ENVIRONMENT.development; ENVIRONMENT.test])
         then "dist" else "") +:+
        "/env/" +:+ e +:+ ".env")) ∧
  (∀ name, env = Inherited name →
     (load EnvironmentConfiguration_init).2 =
     completion
       (cwd +:+ "/" +:+ "undefined" +:+ "/env/" +:+
        inherited_text name +:+ ".env")).
Proof.
  cbv zeta. pose proof loaded_base as Hb. rewrite load_completion. cbv zeta.
  fold EnvironmentConfiguration_loaded. rewrite Hb. fold env.
  split.
  - intros e ->. cbn [ToString existsSync Value_text]. by destruct (on_disk _).
  - intros name ->. cbn [ToString existsSync Value_text].
    by destruct (on_disk _).
Qed.

(** X2.  Running [load] again on the fields it has left changes nothing:
    the same fields, the same completion. *)
Theorem load_idempotent :
  load (load EnvironmentConfiguration_init).1 =
  load EnvironmentConfiguration_init.
Proof.
  pose proof load_environment_variant as Hv.
  unfold load in *. cbn [fst environment base] in *.
  destruct (bool_decide (indexOf argv "--env" ≠ -1)); cbn [environment base] in *.
  - set (e := value_or _ _) in *. clearbody e.
    destruct Hv as [(e' & -> & Hv) | (name & -> & Hv)]; [|done].
    unfold keys in Hv. cbn [fmap list_fmap ENVIRONMENT.members fst] in Hv.
    rewrite !elem_of_cons, elem_of_nil in Hv.
    by destruct Hv as [->|[->|[->|[->|[]]]]].
  - reflexivity.
Qed.

(** ** The module as a whole *)

(** X3.  The module fails with the message of the first statement that
    throws, in the order load, authorized, contentType,
    jwtExpirationInterval, jwtSecret, port, ssl, typeorm, and it exports
    its object exactly when none of them throws. *)
Theorem exports_first_failure :
  failure exports =
  head (omap id
          [failure (load EnvironmentConfiguration_init).2;
           failure authorized; failure contentType;
           failure jwtExpirationInterval; failure jwtSecret;
           failure port; failure ssl; failure typeorm]).
Proof.
  unfold exports.
  destruct (load EnvironmentConfiguration_init).2; [|done].
  destruct authorized; [|done]. destruct contentType; [|done].
  destruct jwtExpirationInterval; [|done]. destruct jwtSecret; [|done].
  destruct port; [|done]. destruct ssl; [|done]. by destruct typeorm.
Qed.

Lemma exports_sections_authorized (e : Exports.t) :
  exports = Return e → authorized = Return (Exports.authorized e).
Proof.
  unfold exports.
  destruct (load EnvironmentConfiguration_init).2; [|done].
  destruct authorized; [|done]. destruct contentType; [|done].
  destruct jwtExpirationInterval; [|done]. destruct jwtSecret; [|done].
  destruct port; [|done]. destruct ssl; [|done]. destruct typeorm; [|done].
  by intros [= <-].
Qed.

Lemma exports_sections_jwtSecret (e : Exports.t) :
  exports = Return e → jwtSecret = Return (Exports.jwtSecret e).
Proof.
  unfold exports.
  destruct (load EnvironmentConfiguration_init).2; [|done].
  destruct authorized; [|done]. destruct contentType; [|done].
  destruct jwtExpirationInterval; [|done]. destruct jwtSecret; [|done].
  destruct port; [|done]. destruct ssl; [|done]. destruct typeorm; [|done].
  by intros [= <-].
Qed.

(** X5.  AUTHORIZED and JWT_SECRET are required: each resolves to its raw
    value when that is a non-empty string and throws its not-found
    message otherwise, in which case the module exports nothing. *)
Theorem required_scalars :
  (∀ value, authorized = Return value ↔
            process_env !! "AUTHORIZED" = Some value ∧ value ≠ "") ∧
  (∀ value, jwtSecret = Return value ↔
            process_env !! "JWT_SECRET" = Some value ∧ value ≠ "") ∧
  (truthy (process_env !! "AUTHORIZED") = false →
     authorized = Throw "AUTHORIZED not found. Please fill this value in your .env file to indicate allowed hosts." ∧
     ∀ e, exports ≠ Return e) ∧
  (truthy (process_env !! "JWT_SECRET") = false →
     jwtSecret = Throw "JWT_SECRET not found. Please fill this value in your .env file to strengthen the encryption." ∧
     ∀ e, exports ≠ Return e).
Proof.
  assert (∀ A (c : Completion A) message,
            c = Throw message → ∀ v, c ≠ Return v) as Hthrow
    by (intros A c message -> v; discriminate).
  split; [|split; [|split]].
  - intros value. unfold authorized. cbv beta.
    destruct (process_env !! "AUTHORIZED") as [[|c s]|]; simpl; split;
      try done; try (intros [[=] ?]; done).
    + by intros [= <-].
    + by intros [[= <-] _].
  - intros value. unfold jwtSecret. cbv beta.
    destruct (process_env !! "JWT_SECRET") as [[|c s]|]; simpl; split;
      try done; try (intros [[=] ?]; done).
    + by intros [= <-].
    + by intros [[= <-] _].
  - intros H.
    assert (authorized = Throw "AUTHORIZED not found. Please fill this value in your .env file to indicate allowed hosts.") as E
      by (unfold authorized; cbv beta; by rewrite H).
    split; [done|]. intros e He.
    apply exports_sections_authorized in He. by rewrite E in He.
  - intros H.
    assert (jwtSecret = Throw "JWT_SECRET not found. Please fill this value in your .env file to strengthen the encryption.") as E
      by (unfold jwtSecret; cbv beta; by rewrite H).
    split; [done|]. intros e He.
    apply exports_sections_jwtSecret in He. by rewrite E in He.
Qed.

(** ** More on the database section *)

(** [typeorm] with the lookups in the sub-mapping replaced by the lookups
    in [process.env] they answer like. *)
Lemma typeorm_unfold :
  typeorm =
  (if negb (truthy (process_env !! "TYPEORM_TYPE")) then
     Throw "TYPEORM_TYPE not found. Please fill it in your .env file to define the database engine type."
   else if negb (truthy (process_env !! "TYPEORM_PORT")) then
     Throw "TYPEORM_PORT not found. Please fill it in your .env file to define the database server port."
   else if negb (truthy (process_env !! "TYPEORM_HOST")) then
     Throw "TYPEORM_HOST not found. Please fill it in your .env file to define the database server host."
   else if negb (truthy (process_env !! "TYPEORM_DB")) then
     Throw "TYPEORM_DB not found. Please fill it in your .env file to define the targeted database."
   else if negb (truthy (process_env !! "TYPEORM_USER")) then
     Throw "TYPEORM_USER not found. Please fill it in your .env file to define the user of the database."
   else if negb (truthy (process_env !! "TYPEORM_PWD")) &&
           bool_decide (env ≠ Str ENVIRONMENT.test) then
     Throw "TYPEORM_PWD not found. Please fill it in your .env file to define the password of the database."
   else
     Return
       {| Typeorm.type := process_env !! "TYPEORM_TYPE";
          Typeorm.name := or_else (process_env !! "TYPEORM_NAME") "default";
          Typeorm.port := process_env !! "TYPEORM_PORT";
          Typeorm.host := process_env !! "TYPEORM_HOST";
          Typeorm.database := process_env !! "TYPEORM_DB";
          Typeorm.user := process_env !! "TYPEORM_USER";
          Typeorm.pwd := process_env !! "TYPEORM_PWD";
          Typeorm.sync :=
            if bool_decide (env = Str ENVIRONMENT.production) then false
            else truthy (process_env !! "TYPEORM_SYNC");
          Typeorm.log := truthy (process_env !! "TYPEORM_LOG");
          Typeorm.entities :=
            cwd +:+ "/" +:+ ToString (base EnvironmentConfiguration_loaded)
            +:+ "/api/models/**/*.js";
          Typeorm.migrations :=
            cwd +:+ "/" +:+ ToString (base EnvironmentConfiguration_loaded)
            +:+ "/migrations/**/*.js";
          Typeorm.subscribers :=
            cwd +:+ "/" +:+ ToString (base EnvironmentConfiguration_loaded)
            +:+ "/api/subscribers/**/*.subscriber.js" |}).
Proof.
  unfold typeorm. cbv beta.
  by rewrite !typeormParams_prefixed by reflexivity.
Qed.

(** X6.  The database section resolves exactly when TYPEORM_TYPE,
    TYPEORM_PORT, TYPEORM_HOST, TYPEORM_DB and TYPEORM_USER are non-empty
    and TYPEORM_PWD is non-empty or the environment is test. *)
Theorem typeorm_resolves_iff :
  (∃ section, typeorm = Return section) ↔
  truthy (process_env !! "TYPEORM_TYPE") = true ∧
  truthy (process_env !! "TYPEORM_PORT") = true ∧
  truthy (process_env !! "TYPEORM_HOST") = true ∧
  truthy (process_env !! "TYPEORM_DB") = true ∧
  truthy (process_env !! "TYPEORM_USER") = true ∧
  (truthy (process_env !! "TYPEORM_PWD") = true ∨ env = Str ENVIRONMENT.test).
Proof.
  split.
  - intros [section H]. rewrite typeorm_unfold in H.
    destruct (truthy (process_env !! "TYPEORM_TYPE")); [|done].
    destruct (truthy (process_env !! "TYPEORM_PORT")); [|done].
    destruct (truthy (process_env !! "TYPEORM_HOST")); [|done].
    destruct (truthy (process_env !! "TYPEORM_DB")); [|done].
    destruct (truthy (process_env !! "TYPEORM_USER")); [|done].
    repeat (split; [done|]).
    destruct (truthy (process_env !! "TYPEORM_PWD")); [by left|].
    right. simpl in H. case_bool_decide as E; [done|].
    by destruct (decide (env = Str ENVIRONMENT.test)).
  - intros (H1 & H2 & H3 & H4 & H5 & H6). by apply typeorm_resolves.
Qed.

(** X7.  When a required database key is absent or empty, the message
    names the first such key in the order TYPE, PORT, HOST, DB, USER,
    whatever the keys after it hold. *)
Theorem typeorm_first_missing_key :
  let filled key := truthy (process_env !! key) in
  (filled "TYPEORM_TYPE" = false →
     typeorm = Throw "TYPEORM_TYPE not found. Please fill it in your .env file to define the database engine type.") ∧
  (filled "TYPEORM_TYPE" = true → filled "TYPEORM_PORT" = false →
     typeorm = Throw "TYPEORM_PORT not found. Please fill it in your .env file to define the database server port.") ∧
  (filled "TYPEORM_TYPE" = true → filled "TYPEORM_PORT" = true →
   filled "TYPEORM_HOST" = false →
     typeorm = Throw "TYPEORM_HOST not found. Please fill it in your .env file to define the database server host.") ∧
  (filled "TYPEORM_TYPE" = true → filled "TYPEORM_PORT" = true →
   filled "TYPEORM_HOST" = true → filled "TYPEORM_DB" = false →
     typeorm = Throw "TYPEORM_DB not found. Please fill it in your .env file to define the targeted database.") ∧
  (filled "TYPEORM_TYPE" = true → filled "TYPEORM_PORT" = true →
   filled "TYPEORM_HOST" = true → filled "TYPEORM_DB" = true →
   filled "TYPEORM_USER" = false →
     typeorm = Throw "TYPEORM_USER not found. Please fill it in your .env file to define the user of the database.").
Proof.
  cbv zeta. rewrite typeorm_unfold.
  repeat split; intros; repeat match goal with H : truthy _ = _ |- _ => rewrite H; clear H end; done.
Qed.

(** X8.  A resolved database section carries the raw TYPEORM_TYPE,
    TYPEORM_PORT, TYPEORM_HOST, TYPEORM_DB, TYPEORM_USER and TYPEORM_PWD
    unchanged, the first five non-empty and the port still a string; its
    connection name is TYPEORM_NAME, or [default] when that is absent or
    empty, and is never empty. *)
Theorem typeorm_connection_parameters (section : Typeorm.t) :
  typeorm = Return section →
  Typeorm.type section = process_env !! "TYPEORM_TYPE" ∧
  Typeorm.port section = process_env !! "TYPEORM_PORT" ∧
  Typeorm.host section = process_env !! "TYPEORM_HOST" ∧
  Typeorm.database section = process_env !! "TYPEORM_DB" ∧
  Typeorm.user section = process_env !! "TYPEORM_USER" ∧
  Typeorm.pwd section = process_env !! "TYPEORM_PWD" ∧
  truthy (Typeorm.type section) = true ∧
  truthy (Typeorm.port section) = true ∧
  truthy (Typeorm.host section) = true ∧
  truthy (Typeorm.database section) = true ∧
  truthy (Typeorm.user section) = true ∧
  Typeorm.name section ≠ "" ∧
  (truthy (process_env !! "TYPEORM_NAME") = false →
     Typeorm.name section = "default") ∧
  (∀ name, process_env !! "TYPEORM_NAME" = Some name → name ≠ "" →
     Typeorm.name section = name).
Proof.
  rewrite typeorm_unfold.
  destruct (truthy (process_env !! "TYPEORM_TYPE")) eqn:H1; [|done].
  destruct (truthy (process_env !! "TYPEORM_PORT")) eqn:H2; [|done].
  destruct (truthy (process_env !! "TYPEORM_HOST")) eqn:H3; [|done].
  destruct (truthy (process_env !! "TYPEORM_DB")) eqn:H4; [|done].
  destruct (truthy (process_env !! "TYPEORM_USER")) eqn:H5; [|done].
  simpl negb. cbv iota.
  destruct (_ && _); [done|]. intros [= <-]. cbn.
  repeat (split; [done|]).
  destruct (process_env !! "TYPEORM_NAME") as [[|c name]|]; simpl;
    repeat split; try done.
  - by intros name' [= <-].
  - by intros name' [= <-].
Qed.

(** ** Derived paths *)

(** X9.  Every derived path is built on the same root, [<cwd>/<base>]:
    the log directory, the upload directory and the three typeorm globs.
    The base is [dist] under development and test, empty under staging
    and production, and the text [undefined] when the environment is a
    member inherited from [Object.prototype]. *)
Theorem derived_paths_root (b : string) :
  (env ∈ [Str ENVIRONMENT.development; Str ENVIRONMENT.test] ∧ b = "dist") ∨
  (env ∈ [Str ENVIRONMENT.staging; Str ENVIRONMENT.production] ∧ b = "") ∨
  ((∃ name, env = Inherited name) ∧ b = "undefined") →
  let root := cwd +:+ "/" +:+ b in
  Logs.path logs = root +:+ "/" +:+ or_else (process_env !! "LOGS_PATH") "logs" ∧
  Upload.destination upload =
    root +:+ "/" +:+ or_else (process_env !! "UPLOAD_PATH") "public" ∧
  (∀ section, typeorm = Return section →
     Typeorm.entities section = root +:+ "/api/models/**/*.js" ∧
     Typeorm.migrations section = root +:+ "/migrations/**/*.js" ∧
     Typeorm.subscribers section =
       root +:+ "/api/subscribers/**/*.subscriber.js").
Proof.
  intros Hcase.
  assert (ToString (base EnvironmentConfiguration_loaded) = b) as Hb.
  { rewrite loaded_base.
    destruct Hcase as [[H ->] | [[H ->] | [[name H] ->]]].
    - rewrite !elem_of_cons, elem_of_nil in H.
      by destruct H as [-> | [-> | []]].
    - rewrite !elem_of_cons, elem_of_nil in H.
      by destruct H as [-> | [-> | []]].
    - by rewrite H. }
  assert (∀ x y z : string, (x +:+ y) +:+ z = x +:+ y +:+ z) as Hassoc.
  { intros x y z. induction x as [|c x IH]; [done|].
    rewrite !app_String. by rewrite IH. }
  cbv zeta. rewrite !Hassoc. split; [|split].
  - unfold logs. cbn [Logs.path]. by rewrite Hb.
  - unfold upload. cbv beta zeta. cbn [Upload.destination].
    rewrite uploadParams_prefixed by reflexivity. by rewrite Hb.
  - intros section. rewrite typeorm_unfold, Hb.
    repeat (match goal with
            | |- (if ?c then Throw _ else _) = _ → _ =>
                destruct c; [discriminate|]
            end).
    intros H. injection H as <-. by repeat split.
Qed.

(** ** More on TLS *)

(** X10.  On a disk where the empty path does not exist, a resolved TLS
    section that is active carries the raw HTTPS_KEY and HTTPS_CERT, both
    existing on disk; an inactive one carries neither. *)
Theorem ssl_active_paths_exist (section : Ssl.t) :
  on_disk "" = false →
  ssl = Return section →
  (Ssl.isActive section = true →
     ∃ key cert,
       Ssl.key section = Some key ∧ Ssl.cert section = Some cert ∧
       process_env !! "HTTPS_KEY" = Some key ∧
       process_env !! "HTTPS_CERT" = Some cert ∧
       on_disk key = true ∧ on_disk cert = true) ∧
  (Ssl.isActive section = false →
     Ssl.key section = None ∧ Ssl.cert section = None).
Proof.
  intros Hempty. unfold ssl. cbv beta zeta.
  destruct (truthy_number (parseInt (process_env !! "HTTPS_IS_ACTIVE"))).
  - destruct (process_env !! "HTTPS_KEY") as [key|]; [|done].
    destruct (process_env !! "HTTPS_CERT") as [cert|];
      [|simpl; by destruct (on_disk key)].
    simpl. destruct (on_disk key) eqn:Hkey; [|done].
    destruct (on_disk cert) eqn:Hcert; [|done].
    simpl. intros [= <-]. split; [|done]. intros _.
    exists key, cert. cbn.
    destruct key as [|c key]; [congruence|].
    destruct cert as [|c' cert]; [congruence|]. done.
  - simpl. intros [= <-]. by split.
Qed.

(** ** More on the numeric fields *)

(** X11.  The five resize sizes, the upload file size and the upload file
    count are never zero, whatever [process.env] holds. *)
Theorem numeric_fields_nonzero :
  Resize.xs (Resize.sizes resize) ≠ 0 ∧
  Resize.sm (Resize.sizes resize) ≠ 0 ∧
  Resize.md (Resize.sizes resize) ≠ 0 ∧
  Resize.lg (Resize.sizes resize) ≠ 0 ∧
  Resize.xl (Resize.sizes resize) ≠ 0 ∧
  Upload.filesize upload ≠ 0 ∧
  Upload.maxFiles upload ≠ 0.
Proof.
  assert (∀ n d, d ≠ 0 → number_or n d ≠ 0) as H.
  { intros [|z] d Hd; simpl; [done|]. by destruct (Z.eqb_spec z 0). }
  unfold resize, upload. cbv beta zeta.
  cbn [Resize.sizes Resize.xs Resize.sm Resize.md Resize.lg Resize.xl
       Upload.filesize Upload.maxFiles].
  repeat split; by apply H.
Qed.

(** ** More on the content type *)

Lemma member_Some_key {V} (table : list (string * V)) (key : string) (v : V) :
  member table key = Some v → key ∈ keys table.
Proof.
  unfold keys. induction table as [|[k v'] table IH]; simpl; [done|].
  case_bool_decide as E.
  - intros _. subst k. apply list_elem_of_here.
  - intros H. apply list_elem_of_further. by apply IH.
Qed.

(** X12.  A resolved content type is one of the supported ones or a name
    of [Object.prototype]. *)
Theorem contentType_in_vocabulary (value : string) :
  contentType = Return value →
  value ∈ keys CONTENT_MIME_TYPE ∨ value ∈ Object_prototype.
Proof.
  unfold contentType. cbv beta.
  destruct (process_env !! "CONTENT_TYPE") as [[|c s]|].
  - simpl. intros [= <-]. left. apply list_elem_of_here.
  - cbn [truthy andb ToString or_else]. unfold get.
    destruct (member CONTENT_MIME_TYPE (String c s)) as [v|] eqn:E.
    + destruct (truthy_value (Some (Str v))); [|done]. simpl.
      intros [= <-]. left. by apply member_Some_key in E.
    + case_bool_decide as Hin; [|done]. simpl. intros [= <-]. by right.
  - simpl. intros [= <-]. left. apply list_elem_of_here.
Qed.

(** ** Text after the number *)

Lemma parse_digits_app (s t : string) (acc : option Z) :
  match t with String c _ => digit_value c = None | "" => True end →
  parse_digits (s +:+ t) acc = parse_digits s acc.
Proof.
  intros Ht. revert acc. induction s as [|c s IH]; intros acc.
  - rewrite app_empty_l. destruct t as [|c t]; [done|]. simpl. by rewrite Ht.
  - rewrite app_String. simpl. destruct (digit_value c); [apply IH | done].
Qed.

Lemma trim_start_app (s t : string) :
  trim_start s ≠ "" → trim_start (s +:+ t) = trim_start s +:+ t.
Proof.
  induction s as [|c s IH]; [done|]. rewrite app_String. simpl.
  destruct (is_white_space c); [apply IH | by rewrite app_String].
Qed.

Lemma take_sign_app (s t : string) :
  s ≠ "" →
  take_sign (s +:+ t) = ((take_sign s).1, (take_sign s).2 +:+ t).
Proof.
  destruct s as [|c s]; [done|]. intros _. rewrite app_String. simpl.
  by repeat case_bool_decide.
Qed.

(** What follows a number that [parseInt] has read does not change it,
    as long as it does not start with a digit. *)
Lemma parseInt_app (s t : string) (z : Z) :
  parseInt (Some s) = Int z →
  match t with String c _ => digit_value c = None | "" => True end →
  parseInt (Some (s +:+ t)) = Int z.
Proof.
  unfold parseInt. cbn [ToString]. intros Hs Ht.
  destruct (decide (trim_start s = "")) as [E | E].
  { rewrite E in Hs. discriminate Hs. }
  rewrite trim_start_app, take_sign_app by done.
  destruct (take_sign (trim_start s)) as [sign r]. cbn [fst snd].
  by rewrite parse_digits_app.
Qed.

(** X13.  Text that follows the number is ignored by the validation: when
    [s] parses to [z] and [t] does not start with a digit, a
    JWT_EXPIRATION_MINUTES of [s] followed by [t] resolves to [z], and a
    PORT of [s] followed by [t] is accepted and resolves to the whole raw
    string, [t] included. *)
Theorem trailing_text_ignored (s t : string) (z : Z) :
  parseInt (Some s) = Int z →
  match t with String c _ => digit_value c = None | "" => True end →
  (process_env !! "JWT_EXPIRATION_MINUTES" = Some (s +:+ t) →
     jwtExpirationInterval = Return (Int z)) ∧
  (process_env !! "PORT" = Some (s +:+ t) →
     port = Return (Some (s +:+ t))).
Proof.
  intros Hs Ht. pose proof (parseInt_app s t z Hs Ht) as H.
  pose proof (parseInt_Int_truthy _ _ H) as Htruthy.
  unfold jwtExpirationInterval, port. cbv beta.
  split; intros ->; by rewrite Htruthy, H.
Qed.

(** X14.  The port that resolves is the raw PORT unchanged, absent when
    PORT is absent, and it resolves exactly when PORT is absent, empty or
    starts with a number.  The expiration resolves exactly when
    JWT_EXPIRATION_MINUTES starts with a number; it is never [NaN], and
    for a number of at most 2^53 in magnitude it is that number. *)
Theorem validated_numbers :
  (∀ value, port = Return value → value = process_env !! "PORT") ∧
  ((∃ value, port = Return value) ↔
   truthy (process_env !! "PORT") = false ∨
   isNaN (parseInt (process_env !! "PORT")) = false) ∧
  ((∃ n, jwtExpirationInterval = Return n) ↔
   isNaN (parseInt (process_env !! "JWT_EXPIRATION_MINUTES")) = false) ∧
  (∀ n, jwtExpirationInterval = Return n → isNaN n = false) ∧
  (∀ z, parseInt (process_env !! "JWT_EXPIRATION_MINUTES") = Int z →
        Z.abs z ≤ 2 ^ 53 →
        jwtExpirationInterval = Return (Int z)).
Proof.
  unfold port, jwtExpirationInterval. cbv beta.
  split; [|split; [|split; [|split]]].
  - intros value. destruct (_ && _); [done|]. by intros [= <-].
  - destruct (truthy (process_env !! "PORT")); simpl.
    + destruct (parseInt (process_env !! "PORT")) as [|z]; simpl; split.
      * by intros [value H].
      * intros [H | H]; done.
      * intros _. by right.
      * intros _. by eexists.
    + split; [by left | by eexists].
  - destruct (truthy (process_env !! "JWT_EXPIRATION_MINUTES")) eqn:Htruthy;
      simpl.
    + destruct (parseInt (process_env !! "JWT_EXPIRATION_MINUTES")) as [|z];
        simpl; split; try done.
      * by intros [n H].
      * intros _. by eexists.
    + split; [by intros [n H]|].
      destruct (parseInt (process_env !! "JWT_EXPIRATION_MINUTES")) as [|z]
        eqn:E; [done|].
      apply parseInt_Int_truthy in E. congruence.
  - intros n.
    destruct (truthy (process_env !! "JWT_EXPIRATION_MINUTES")); [|done].
    simpl.
    destruct (parseInt (process_env !! "JWT_EXPIRATION_MINUTES")); [done|].
    by intros [= <-].
  - intros z E _. by rewrite (parseInt_Int_truthy _ _ E), E.
Qed.

(** ** More on the upload section *)

Lemma upload_wildcards_join :
  Upload.wildcards upload =
  mjoin (enum_list <$>
         omap (member [("AUDIO", AUDIO_MIME_TYPE); ("ARCHIVE", ARCHIVE_MIME_TYPE);
                       ("DOCUMENT", DOCUMENT_MIME_TYPE);
                       ("IMAGE", IMAGE_MIME_TYPE); ("VIDEO", VIDEO_MIME_TYPE)])
           (if truthy (process_env !! "UPLOAD_WILDCARDS")
            then split "," (ToString (process_env !! "UPLOAD_WILDCARDS"))
            else ["AUDIO"; "ARCHIVE"; "DOCUMENT"; "IMAGE"; "VIDEO"])).
Proof.
  unfold upload. cbv beta zeta. cbn [Upload.wildcards].
  rewrite uploadParams_prefixed by reflexivity.
  by rewrite foldl_append_join, omap_filter_is_Some.
Qed.

(** X15.  When UPLOAD_WILDCARDS is filled in and none of its tokens is,
    letter for letter, one of AUDIO, ARCHIVE, DOCUMENT, IMAGE and VIDEO,
    the upload section accepts no MIME type at all: the five categories
    stand in for an absent or empty list only. *)
Theorem upload_unknown_tokens :
  truthy (process_env !! "UPLOAD_WILDCARDS") = true →
  Forall (λ token, token ∉ ["AUDIO"; "ARCHIVE"; "DOCUMENT"; "IMAGE"; "VIDEO"])
    (split "," (ToString (process_env !! "UPLOAD_WILDCARDS"))) →
  Upload.wildcards upload = [].
Proof.
  intros Htruthy Htokens. rewrite upload_wildcards_join, Htruthy.
  induction Htokens as [|token tokens Htoken _ IH]; [done|].
  cbn [omap list_omap]. by rewrite member_None.
Qed.

End environment_config.

(** ** The properties on the sample deployment *)

(** On the production command line the active environment is production;
    after [--env prod] it is development. *)
Example load_environment_selected_production :
  env Sample.argv_production Sample.cwd Sample.env_files Sample.inherited_text
  = Str "production" ∧
  env (Sample.argv_plain ++ ["--env"; "prod"]) Sample.cwd Sample.env_files
    Sample.inherited_text
  = Str "development".
Proof. split; reflexivity. Qed.

(** C4 at [--env toString].  The name is none of the four variants, yet
    the active environment is not development: the lookup finds the
    function the enum inherits under that name, the base stays
    [undefined], and [load] throws on a path made of both. *)
Theorem environment_of_inherited_name :
  let argv := Sample.argv_plain ++ ["--env"; "toString"] in
  ("toString" ∉ keys ENVIRONMENT.members) ∧
  (load argv Sample.cwd Sample.env_files Sample.inherited_text
     EnvironmentConfiguration_init).1 =
  {| environment := Inherited "toString"; base := None |} ∧
  env argv Sample.cwd Sample.env_files Sample.inherited_text
  ≠ Str ENVIRONMENT.development ∧
  (load argv Sample.cwd Sample.env_files Sample.inherited_text
     EnvironmentConfiguration_init).2 =
  Throw ".env file not found on /srv/api/undefined/env/function toString() { [native code] }.env".
Proof.
  intros argv. split; [|split; [|split]].
  - apply (bool_decide_unpack _). vm_compute. exact I.
  - reflexivity.
  - discriminate.
  - reflexivity.
Qed.

(** C9.  The base path segment is decided by the active environment
    alone: two runs that select the same environment have the same base.
    It is [dist] when the environment is development or test, and the
    empty segment when it is staging or production. *)
Theorem base_path_segment
    (argv : list string) (cwd : string) (on_disk : string → bool)
    (inherited_text : string → string) :
  let this := EnvironmentConfiguration_loaded argv cwd on_disk inherited_text in
  (environment this = Str ENVIRONMENT.development ∨
   environment this = Str ENVIRONMENT.test → base this = Some "dist") ∧
  (environment this = Str ENVIRONMENT.staging ∨
   environment this = Str ENVIRONMENT.production → base this = Some "") ∧
  (∀ argv' cwd' on_disk' inherited_text',
     let this' :=
       EnvironmentConfiguration_loaded argv' cwd' on_disk' inherited_text' in
     environment this' = environment this → base this' = base this).
Proof.
  intros this. subst this. rewrite loaded_base. unfold env.
  split; [|split].
  - by intros [-> | ->].
  - by intros [-> | ->].
  - intros argv' cwd' on_disk' inherited_text'. cbv zeta. intros E.
    rewrite loaded_base. unfold env. by rewrite E.
Qed.

(** Under test the base is [dist], under production it is empty. *)
Lemma base_path_segment_witness :
  base (EnvironmentConfiguration_loaded Sample.argv_test Sample.cwd
          Sample.env_files Sample.inherited_text) = Some "dist" ∧
  base (EnvironmentConfiguration_loaded Sample.argv_production Sample.cwd
          Sample.env_files Sample.inherited_text) = Some "".
Proof.
  split.
  - destruct (base_path_segment Sample.argv_test Sample.cwd Sample.env_files
                Sample.inherited_text) as (H & _).
    apply H. right. reflexivity.
  - destruct (base_path_segment Sample.argv_production Sample.cwd
                Sample.env_files Sample.inherited_text) as (_ & H & _).
    apply H. right. reflexivity.
Defined.

(** Without a password the database section resolves under test and fails
    under production. *)
Lemma typeorm_password_required_unless_test_witness :
  let process_env : gmap string string := list_to_map Sample.database in
  (∃ section,
     typeorm Sample.argv_test Sample.cwd Sample.all_on_disk Sample.inherited_text process_env =
     Return section ∧ Typeorm.pwd section = None) ∧
  typeorm Sample.argv_production Sample.cwd Sample.all_on_disk Sample.inherited_text process_env =
  Throw "TYPEORM_PWD not found. Please fill it in your .env file to define the password of the database.".
Proof.
  intros process_env. split.
  - destruct (typeorm_password_required_unless_test Sample.argv_test
                Sample.cwd Sample.all_on_disk Sample.inherited_text process_env
                eq_refl eq_refl eq_refl eq_refl eq_refl eq_refl) as [H _].
    destruct (H eq_refl) as (section & E & Hpwd & _).
    exists section. split; [exact E|]. rewrite Hpwd. reflexivity.
  - destruct (typeorm_password_required_unless_test Sample.argv_production
                Sample.cwd Sample.all_on_disk Sample.inherited_text process_env
                eq_refl eq_refl eq_refl eq_refl eq_refl eq_refl) as [_ H].
    apply H. vm_compute. discriminate.
Defined.

(** Under production the sync flag is false although TYPEORM_SYNC is 1;
    under test it is true. *)
Lemma typeorm_sync_flag_witness :
  let process_env : gmap string string :=
    list_to_map (("TYPEORM_SYNC", "1") :: Sample.required) in
  (∃ section,
     typeorm Sample.argv_production Sample.cwd Sample.all_on_disk Sample.inherited_text process_env =
     Return section ∧ Typeorm.sync section = false) ∧
  (∃ section,
     typeorm Sample.argv_test Sample.cwd Sample.all_on_disk Sample.inherited_text process_env =
     Return section ∧ Typeorm.sync section = true).
Proof.
  intros process_env. split.
  - eexists. split; [vm_compute; reflexivity|].
    refine (proj1 (typeorm_sync_flag Sample.argv_production Sample.cwd
                     Sample.all_on_disk Sample.inherited_text process_env _ _) _);
      vm_compute; reflexivity.
  - eexists. split; [vm_compute; reflexivity|].
    refine (eq_trans
              (proj2 (typeorm_sync_flag Sample.argv_test Sample.cwd
                        Sample.all_on_disk Sample.inherited_text process_env _ _) _) _).
    + vm_compute; reflexivity.
    + vm_compute; discriminate.
    + vm_compute; reflexivity.
Defined.

(** C2 at TYPEORM_SYNC=0 and TYPEORM_LOG=0 under development: both raw
    values parse to zero, and the database section resolves with both
    flags true. *)
Theorem typeorm_flags_of_zero :
  let process_env : gmap string string :=
    list_to_map (("TYPEORM_SYNC", "0") :: ("TYPEORM_LOG", "0") :: Sample.required) in
  parseInt (process_env !! "TYPEORM_SYNC") = Int 0 ∧
  parseInt (process_env !! "TYPEORM_LOG") = Int 0 ∧
  env Sample.argv_plain Sample.cwd Sample.all_on_disk Sample.inherited_text
  = Str "development" ∧
  ∃ section,
    typeorm Sample.argv_plain Sample.cwd Sample.all_on_disk Sample.inherited_text process_env =
    Return section ∧
    Typeorm.sync section = true ∧ Typeorm.log section = true.
Proof.
  intros process_env. repeat split.
  eexists. split; [vm_compute; reflexivity|]. split; reflexivity.
Qed.

(** The flags read through [parseInt] are false at 0 and when absent. *)
Example resize_isActive_of_zero :
  Resize.isActive (resize {[ "RESIZE_IS_ACTIVE" := "0" ]}) = false ∧
  Resize.isActive (resize ∅) = false ∧
  Resize.isActive (resize {[ "RESIZE_IS_ACTIVE" := "1" ]}) = true.
Proof. by vm_compute. Qed.

Example ssl_isActive_of_zero :
  ssl Sample.cert_only {[ "HTTPS_IS_ACTIVE" := "0" ]} =
  Return {| Ssl.isActive := false; Ssl.key := None; Ssl.cert := None |}.
Proof. by vm_compute. Qed.

(** A key that holds TYPEORM without starting with it is in the database
    sub-mapping, and likewise for UPLOAD. *)
Lemma grouped_key_extraction_counterexample :
  let process_env : gmap string string :=
    {[ "CACHE_TYPEORM_TTL" := "60"; "S3_UPLOAD_BUCKET" := "media" ]} in
  (¬ ∃ rest, "CACHE_TYPEORM_TTL" = "TYPEORM" +:+ rest) ∧
  typeormParams process_env !! "CACHE_TYPEORM_TTL" = Some "60" ∧
  (¬ ∃ rest, "S3_UPLOAD_BUCKET" = "UPLOAD" +:+ rest) ∧
  uploadParams process_env !! "S3_UPLOAD_BUCKET" = Some "media".
Proof.
  intros process_env.
  split; [intros [rest H]; discriminate H|].
  split; [by vm_compute|].
  split; [intros [rest H]; discriminate H|].
  by vm_compute.
Qed.

(** On a sample [process.env] the database sub-mapping keeps the keys that
    hold TYPEORM and drops the others. *)
Lemma grouped_key_extraction_witness :
  let process_env : gmap string string :=
    {[ "TYPEORM_FUTURE_OPTION" := "x"; "JWT_SECRET" := "s3cr3t" ]} in
  typeormParams process_env !! "TYPEORM_FUTURE_OPTION" = Some "x" ∧
  typeormParams process_env !! "JWT_SECRET" = None.
Proof.
  intros process_env.
  destruct (grouped_key_extraction process_env) as (H & _ & Hprefix & _).
  split.
  - exact (eq_trans (Hprefix "_FUTURE_OPTION") eq_refl).
  - destruct (typeormParams process_env !! "JWT_SECRET") as [value|] eqn:E;
      [|reflexivity].
    apply H in E as [_ (pre & post & E)]. exfalso.
    assert (lastIndexOf "JWT_SECRET" "TYPEORM" ≠ -1) as Hfound
      by (apply lastIndexOf_found; eauto).
    apply Hfound. reflexivity.
Defined.

(** With HTTPS switched on and no private key on disk the TLS section
    fails; switched off, the same paths are not looked at. *)
Lemma ssl_dependent_resources_witness :
  let paths : list (string * string) :=
    [("HTTPS_KEY", "/etc/ssl/api.key"); ("HTTPS_CERT", "/etc/ssl/api.crt")] in
  ssl Sample.cert_only (list_to_map (("HTTPS_IS_ACTIVE", "1") :: paths)) =
  Throw "HTTPS_KEY bad value or private key not found. Please check your .env file configuration." ∧
  ssl Sample.cert_only (list_to_map (("HTTPS_IS_ACTIVE", "0") :: paths)) =
  Return {| Ssl.isActive := false; Ssl.key := None; Ssl.cert := None |}.
Proof.
  intros paths. split.
  - destruct (ssl_dependent_resources Sample.cert_only
                (list_to_map (("HTTPS_IS_ACTIVE", "1") :: paths)))
      as (_ & H & _).
    apply H; reflexivity.
  - destruct (ssl_dependent_resources Sample.cert_only
                (list_to_map (("HTTPS_IS_ACTIVE", "0") :: paths)))
      as (_ & _ & _ & H & _).
    apply H; reflexivity.
Defined.

(** text/plain is refused with the list of the supported values; without
    CONTENT_TYPE the content type is application/json. *)
Example contentType_cases_sample :
  contentType {[ "CONTENT_TYPE" := "text/plain" ]} Sample.enum_list =
  Throw "CONTENT_TYPE bad value. Supported Content-Type must be one of application/json,application/vnd.api+json,multipart/form-data" ∧
  contentType ∅ Sample.enum_list = Return "application/json".
Proof.
  split.
  - destruct (contentType_cases {[ "CONTENT_TYPE" := "text/plain" ]}
                Sample.enum_list) as (H & _).
    refine (eq_trans (H "text/plain" eq_refl _ _ _) eq_refl).
    + discriminate.
    + apply (bool_decide_unpack _). vm_compute. exact I.
    + apply (bool_decide_unpack _). vm_compute. exact I.
  - destruct (contentType_cases ∅ Sample.enum_list) as (_ & H & _).
    apply H. reflexivity.
Qed.

(** C6 at CONTENT_TYPE=toString.  The value is not empty and not in the
    vocabulary, yet the content type resolves, to that value: the lookup
    finds the function the enum inherits under that name. *)
Theorem content_type_of_inherited_name (enum_list : Enum → list string) :
  ("toString" ∉ keys CONTENT_MIME_TYPE) ∧
  contentType {[ "CONTENT_TYPE" := "toString" ]} enum_list = Return "toString".
Proof.
  split; [|reflexivity].
  apply (bool_decide_unpack _). vm_compute. exact I.
Qed.

(** For IMAGE,BOGUS the accepted MIME types are those of the sample IMAGE
    category. *)
Lemma upload_wildcards_expansion_witness :
  Upload.wildcards
    (upload Sample.argv_plain Sample.cwd Sample.all_on_disk Sample.inherited_text
       {[ "UPLOAD_WILDCARDS" := "IMAGE,BOGUS" ]}
       Sample.AUDIO_MIME_TYPE Sample.ARCHIVE_MIME_TYPE
       Sample.DOCUMENT_MIME_TYPE Sample.IMAGE_MIME_TYPE
       Sample.VIDEO_MIME_TYPE Sample.enum_list) =
  ["image/png"; "image/jpeg"].
Proof.
  destruct (upload_wildcards_expansion Sample.argv_plain Sample.cwd
              Sample.all_on_disk Sample.inherited_text {[ "UPLOAD_WILDCARDS" := "IMAGE,BOGUS" ]}
              Sample.AUDIO_MIME_TYPE Sample.ARCHIVE_MIME_TYPE
              Sample.DOCUMENT_MIME_TYPE Sample.IMAGE_MIME_TYPE
              Sample.VIDEO_MIME_TYPE Sample.enum_list) as (_ & _ & H & _).
  refine (eq_trans (H _) eq_refl). reflexivity.
Defined.

(** A JWT_EXPIRATION_MINUTES and a PORT that do not parse are refused; a
    RESIZE_SIZE_SM that does not parse resolves to 320 and an absent
    UPLOAD_MAX_FILES to 5. *)
Lemma numeric_coercion_witness :
  let process_env : gmap string string :=
    {[ "JWT_EXPIRATION_MINUTES" := "soon"; "PORT" := "http";
       "RESIZE_SIZE_SM" := "abc" ]} in
  jwtExpirationInterval process_env =
  Throw "JWT_EXPIRATION_MINUTES bad value. Expiration value must be a duration expressed as a number" ∧
  port process_env = Throw "PORT bad value. Port value must be a number" ∧
  Resize.sm (Resize.sizes (resize process_env)) = 320 ∧
  Upload.maxFiles
    (upload Sample.argv_plain Sample.cwd Sample.all_on_disk Sample.inherited_text process_env
       Sample.AUDIO_MIME_TYPE Sample.ARCHIVE_MIME_TYPE
       Sample.DOCUMENT_MIME_TYPE Sample.IMAGE_MIME_TYPE
       Sample.VIDEO_MIME_TYPE Sample.enum_list) = 5.
Proof.
  intros process_env.
  destruct (numeric_coercion Sample.argv_plain Sample.cwd Sample.all_on_disk Sample.inherited_text
              process_env Sample.AUDIO_MIME_TYPE Sample.ARCHIVE_MIME_TYPE
              Sample.DOCUMENT_MIME_TYPE Sample.IMAGE_MIME_TYPE
              Sample.VIDEO_MIME_TYPE Sample.enum_list)
    as (Hjwt & _ & _ & Hport & _ & _ & Hsm & _ & _ & _ & _ & Hfiles).
  split; [apply Hjwt; reflexivity|].
  split; [apply Hport; reflexivity|].
  split.
  - destruct Hsm as (_ & H & _). apply H. reflexivity.
  - destruct Hfiles as (H & _). apply H. reflexivity.
Defined.

(** With RESIZE_SIZE_SM=abc and UPLOAD_MAX_FILES=many, both filled in and
    neither parsing, the module runs to its end and exports the defaults
    320 and 5. *)
Lemma numeric_coercion_counterexample :
  let process_env : gmap string string :=
    list_to_map
      (("RESIZE_SIZE_SM", "abc") :: ("UPLOAD_MAX_FILES", "many") ::
       Sample.required) in
  process_env !! "RESIZE_SIZE_SM" = Some "abc" ∧
  isNaN (parseInt (Some "abc")) = true ∧
  process_env !! "UPLOAD_MAX_FILES" = Some "many" ∧
  isNaN (parseInt (Some "many")) = true ∧
  ∃ e,
    exports Sample.argv_plain Sample.cwd Sample.all_on_disk Sample.inherited_text process_env
      Sample.AUDIO_MIME_TYPE Sample.ARCHIVE_MIME_TYPE
      Sample.DOCUMENT_MIME_TYPE Sample.IMAGE_MIME_TYPE
      Sample.VIDEO_MIME_TYPE Sample.enum_list = Return e ∧
    Resize.sm (Resize.sizes (Exports.resize e)) = 320 ∧
    Upload.maxFiles (Exports.upload e) = 5.
Proof.
  intros process_env. repeat split.
  eexists. split; [vm_compute; reflexivity|]. split; reflexivity.
Qed.

(** ** Composition *)

Lemma split_nonempty (sep : ascii) (s : string) : split sep s ≠ [].
Proof.
  destruct s as [|c s]; simpl; [done|].
  case_bool_decide; [done|]. by destruct (split sep s).
Qed.

(** Splitting at a separator splits the list of tokens. *)
Lemma split_app (sep : ascii) (a b : string) :
  split sep (a +:+ String sep b) = split sep a ++ split sep b.
Proof.
  induction a as [|c a IH].
  - rewrite app_empty_l. simpl. by rewrite bool_decide_eq_true_2.
  - rewrite app_String. simpl. rewrite IH. case_bool_decide; [done|].
    pose proof (split_nonempty sep a). by destruct (split sep a).
Qed.

(** X16.  The MIME types accepted for a list made of two non-empty lists
    joined by a comma are those accepted for the first followed by those
    accepted for the second. *)
Theorem upload_wildcards_append
    (argv : list string) (cwd : string) (on_disk : string → bool)
    (inherited_text : string → string) (process_env : gmap string string)
    (AUDIO ARCHIVE DOCUMENT IMAGE VIDEO : Enum)
    (enum_list : Enum → list string) (a b : string) :
  let accepted raw :=
    Upload.wildcards
      (upload argv cwd on_disk inherited_text
         (<["UPLOAD_WILDCARDS" := raw]> process_env)
         AUDIO ARCHIVE DOCUMENT IMAGE VIDEO enum_list) in
  a ≠ "" → b ≠ "" →
  accepted (a +:+ "," +:+ b) = accepted a ++ accepted b.
Proof.
  intros accepted Ha Hb. subst accepted. cbv beta.
  rewrite !upload_wildcards_join, !lookup_insert_eq. cbn [ToString].
  destruct a as [|ca a]; [done|]. destruct b as [|cb b]; [done|].
  rewrite app_String. cbn [truthy]. rewrite <- app_String.
  change ("," +:+ String cb b) with (String "," (String cb b)).
  by rewrite split_app, omap_app, fmap_app, join_app.
Qed.

(** X17.  Extracting the grouped keys loses nothing it has kept: the
    sub-mappings are part of [process.env], and extracting again from a
    sub-mapping gives it back. *)
Theorem params_idempotent (process_env : gmap string string) :
  typeormParams process_env ⊆ process_env ∧
  uploadParams process_env ⊆ process_env ∧
  typeormParams (typeormParams process_env) = typeormParams process_env ∧
  uploadParams (uploadParams process_env) = uploadParams process_env.
Proof.
  unfold typeormParams, uploadParams.
  split; [|split; [|split]].
  - apply map_subseteq_spec. intros key value. rewrite params_lookup.
    by case_bool_decide.
  - apply map_subseteq_spec. intros key value. rewrite params_lookup.
    by case_bool_decide.
  - apply map_eq. intros key. rewrite !params_lookup. by case_bool_decide.
  - apply map_eq. intros key. rewrite !params_lookup. by case_bool_decide.
Qed.

(** ** The further properties on the sample deployment *)

(** Without JWT_SECRET the secret is not found and nothing is exported. *)
Lemma required_scalars_witness :
  let process_env : gmap string string :=
    delete "JWT_SECRET" (list_to_map Sample.required) in
  jwtSecret process_env =
  Throw "JWT_SECRET not found. Please fill this value in your .env file to strengthen the encryption." ∧
  ¬ ∃ e,
      exports Sample.argv_test Sample.cwd Sample.all_on_disk Sample.inherited_text process_env
        Sample.AUDIO_MIME_TYPE Sample.ARCHIVE_MIME_TYPE
        Sample.DOCUMENT_MIME_TYPE Sample.IMAGE_MIME_TYPE
        Sample.VIDEO_MIME_TYPE Sample.enum_list = Return e.
Proof.
  intros process_env.
  destruct (required_scalars Sample.argv_test Sample.cwd Sample.all_on_disk Sample.inherited_text
              process_env Sample.AUDIO_MIME_TYPE Sample.ARCHIVE_MIME_TYPE
              Sample.DOCUMENT_MIME_TYPE Sample.IMAGE_MIME_TYPE
              Sample.VIDEO_MIME_TYPE Sample.enum_list) as (_ & _ & _ & H).
  destruct (H eq_refl) as [Hsecret Hexports].
  split; [exact Hsecret|]. intros [e He]. exact (Hexports e He).
Defined.

(** With TYPEORM_HOST and TYPEORM_USER both missing, the message is the
    one of TYPEORM_HOST. *)
Lemma typeorm_first_missing_key_witness :
  typeorm Sample.argv_plain Sample.cwd Sample.all_on_disk Sample.inherited_text
    (list_to_map [("TYPEORM_TYPE", "mysql"); ("TYPEORM_PORT", "3306");
                  ("TYPEORM_DB", "api")]) =
  Throw "TYPEORM_HOST not found. Please fill it in your .env file to define the database server host.".
Proof.
  destruct (typeorm_first_missing_key Sample.argv_plain Sample.cwd
              Sample.all_on_disk Sample.inherited_text
              (list_to_map [("TYPEORM_TYPE", "mysql"); ("TYPEORM_PORT", "3306");
                            ("TYPEORM_DB", "api")])) as (_ & _ & H & _).
  apply H; reflexivity.
Defined.

(** The sample database resolves under test with its raw host and the
    default connection name. *)
Lemma typeorm_connection_parameters_witness :
  ∃ section,
    typeorm Sample.argv_test Sample.cwd Sample.all_on_disk Sample.inherited_text
      (list_to_map Sample.database) = Return section ∧
    Typeorm.host section = Some "localhost" ∧
    Typeorm.name section = "default".
Proof.
  eexists. split; [vm_compute; reflexivity|].
  match goal with
  | |- Typeorm.host ?section = _ ∧ _ =>
      destruct (typeorm_connection_parameters Sample.argv_test Sample.cwd
                  Sample.all_on_disk Sample.inherited_text (list_to_map Sample.database) section)
        as (_ & _ & Hhost & _ & _ & _ & _ & _ & _ & _ & _ & _ & Hname & _)
  end.
  - vm_compute; reflexivity.
  - split; [exact Hhost | apply Hname; reflexivity].
Defined.

(** With the certificate and the key on disk the active TLS section
    carries both paths. *)
Lemma ssl_active_paths_exist_witness :
  let on_disk (path : string) : bool :=
    bool_decide (path = "/etc/ssl/api.key") ||
    bool_decide (path = "/etc/ssl/api.crt") in
  let process_env : gmap string string :=
    list_to_map [("HTTPS_IS_ACTIVE", "1"); ("HTTPS_KEY", "/etc/ssl/api.key");
                 ("HTTPS_CERT", "/etc/ssl/api.crt")] in
  ∃ section,
    ssl on_disk process_env = Return section ∧
    ∃ key cert,
      Ssl.key section = Some key ∧ Ssl.cert section = Some cert ∧
      process_env !! "HTTPS_KEY" = Some key ∧
      process_env !! "HTTPS_CERT" = Some cert ∧
      on_disk key = true ∧ on_disk cert = true.
Proof.
  intros on_disk process_env.
  eexists. split; [vm_compute; reflexivity|].
  refine (proj1 (ssl_active_paths_exist on_disk process_env _ _ _) _);
    reflexivity.
Defined.

(** A supported CONTENT_TYPE resolves, and so does valueOf: each is in the
    vocabulary or a name of [Object.prototype]. *)
Lemma contentType_in_vocabulary_witness :
  ("multipart/form-data" ∈ keys CONTENT_MIME_TYPE ∨
   "multipart/form-data" ∈ Object_prototype) ∧
  ("valueOf" ∈ keys CONTENT_MIME_TYPE ∨ "valueOf" ∈ Object_prototype).
Proof.
  split.
  - apply (contentType_in_vocabulary
             {[ "CONTENT_TYPE" := "multipart/form-data" ]} Sample.enum_list).
    reflexivity.
  - apply (contentType_in_vocabulary
             {[ "CONTENT_TYPE" := "valueOf" ]} Sample.enum_list).
    reflexivity.
Defined.

(** An expiration of 15m resolves to 15, and a port of 8080/tcp to the
    whole string. *)
Lemma trailing_text_ignored_witness :
  jwtExpirationInterval {[ "JWT_EXPIRATION_MINUTES" := "15m" ]} =
  Return (Int 15) ∧
  port {[ "PORT" := "8080/tcp" ]} = Return (Some "8080/tcp").
Proof.
  split.
  - refine (proj1 (trailing_text_ignored
                     {[ "JWT_EXPIRATION_MINUTES" := "15m" ]} "15" "m" 15 _ _) _);
      reflexivity.
  - refine (proj2 (trailing_text_ignored
                     {[ "PORT" := "8080/tcp" ]} "8080" "/tcp" 8080 _ _) _);
      reflexivity.
Defined.

(** Lower-case and padded category names are no categories: nothing is
    accepted. *)
Lemma upload_unknown_tokens_witness :
  Upload.wildcards
    (upload Sample.argv_plain Sample.cwd Sample.all_on_disk Sample.inherited_text
       {[ "UPLOAD_WILDCARDS" := "image, VIDEO" ]}
       Sample.AUDIO_MIME_TYPE Sample.ARCHIVE_MIME_TYPE
       Sample.DOCUMENT_MIME_TYPE Sample.IMAGE_MIME_TYPE
       Sample.VIDEO_MIME_TYPE Sample.enum_list) = [].
Proof.
  apply upload_unknown_tokens; [reflexivity|].
  apply (bool_decide_unpack _). vm_compute. exact I.
Defined.

(** IMAGE,VIDEO accepts what IMAGE accepts, then what VIDEO accepts. *)
Lemma upload_wildcards_append_witness :
  let accepted raw :=
    Upload.wildcards
      (upload Sample.argv_plain Sample.cwd Sample.all_on_disk Sample.inherited_text
         {[ "UPLOAD_WILDCARDS" := raw ]}
         Sample.AUDIO_MIME_TYPE Sample.ARCHIVE_MIME_TYPE
         Sample.DOCUMENT_MIME_TYPE Sample.IMAGE_MIME_TYPE
         Sample.VIDEO_MIME_TYPE Sample.enum_list) in
  accepted "IMAGE,VIDEO" = accepted "IMAGE" ++ accepted "VIDEO".
Proof.
  intros accepted.
  refine (upload_wildcards_append Sample.argv_plain Sample.cwd
            Sample.all_on_disk Sample.inherited_text ∅
            Sample.AUDIO_MIME_TYPE Sample.ARCHIVE_MIME_TYPE
            Sample.DOCUMENT_MIME_TYPE Sample.IMAGE_MIME_TYPE
            Sample.VIDEO_MIME_TYPE Sample.enum_list "IMAGE" "VIDEO" _ _);
    discriminate.
Defined.

(** ** Optional strings *)

Lemma or_else_filled (a : JSValue) (d : string) :
  d ≠ "" →
  or_else a d ≠ "" ∧
  (truthy a = false → or_else a d = d) ∧
  (∀ s, a = Some s → s ≠ "" → or_else a d = s).
Proof.
  intros Hd. destruct a as [[|c s]|]; simpl; repeat split; try done.
  - by intros s [= <-].
  - by intros s' [= <-].
Qed.

(** X18.  An optional string that is absent or empty resolves to its
    default, and one that is filled in to itself: the API version (v1),
    the resize directories (master-copy, rescale) and, outside production,
    the log token (dev) are never empty. *)
Theorem optional_strings
    (argv : list string) (cwd : string) (on_disk : string → bool)
    (inherited_text : string → string) (process_env : gmap string string) :
  let resolves (key fallback value : string) :=
    value ≠ "" ∧
    (truthy (process_env !! key) = false → value = fallback) ∧
    (∀ s, process_env !! key = Some s → s ≠ "" → value = s) in
  resolves "API_VERSION" "v1" (version process_env) ∧
  resolves "RESIZE_PATH_MASTER" "master-copy"
    (Resize.master (Resize.destinations (resize process_env))) ∧
  resolves "RESIZE_PATH_SCALE" "rescale"
    (Resize.scale (Resize.destinations (resize process_env))) ∧
  (env argv cwd on_disk inherited_text ≠ Str "production" →
     resolves "LOGS_MORGAN_TOKEN" "dev"
       (Logs.token (logs argv cwd on_disk inherited_text process_env))) ∧
  (env argv cwd on_disk inherited_text = Str "production" →
     Logs.token (logs argv cwd on_disk inherited_text process_env)
     = "combined").
Proof.
  cbv zeta. unfold version, resize, logs, env.
  cbn [Resize.destinations Resize.master Resize.scale Logs.token].
  repeat split; try (by apply or_else_filled).
  - rewrite bool_decide_eq_false_2 by done. by apply or_else_filled.
  - rewrite bool_decide_eq_false_2 by done. by apply or_else_filled.
  - rewrite bool_decide_eq_false_2 by done. by apply or_else_filled.
  - intros Heq. by rewrite bool_decide_eq_true_2.
Qed.

(** Under production the log token is combined whatever LOGS_MORGAN_TOKEN
    holds; under test it is the raw token. *)
Lemma optional_strings_witness :
  Logs.token
    (logs Sample.argv_production Sample.cwd Sample.all_on_disk Sample.inherited_text
       {[ "LOGS_MORGAN_TOKEN" := "tiny" ]}) = "combined" ∧
  Logs.token
    (logs Sample.argv_test Sample.cwd Sample.all_on_disk Sample.inherited_text
       {[ "LOGS_MORGAN_TOKEN" := "tiny" ]}) = "tiny".
Proof.
  split.
  - destruct (optional_strings Sample.argv_production Sample.cwd
                Sample.all_on_disk Sample.inherited_text {[ "LOGS_MORGAN_TOKEN" := "tiny" ]})
      as (_ & _ & _ & _ & H).
    apply H. reflexivity.
  - destruct (optional_strings Sample.argv_test Sample.cwd
                Sample.all_on_disk Sample.inherited_text {[ "LOGS_MORGAN_TOKEN" := "tiny" ]})
      as (_ & _ & _ & H & _).
    destruct H as (_ & _ & H); [vm_compute; discriminate|].
    apply (H "tiny"); [reflexivity | discriminate].
Defined.

(** ** [load] on fields left by an earlier run *)

(** X19.  When the arguments hold [--env], the environment [load] leaves
    does not depend on the fields it finds; and when that environment is
    one of the variants, neither do the base and the completion: from any
    earlier fields [load] leaves what it leaves on a fresh class. *)
Theorem load_overrides
    (argv : list string) (cwd : string) (on_disk : string → bool)
    (inherited_text : string → string) (this : EnvironmentConfiguration) :
  "--env" ∈ argv →
  environment (load argv cwd on_disk inherited_text this).1 =
  environment
    (load argv cwd on_disk inherited_text EnvironmentConfiguration_init).1 ∧
  (∀ e,
     environment
       (load argv cwd on_disk inherited_text EnvironmentConfiguration_init).1
     = Str e →
     load argv cwd on_disk inherited_text this =
     load argv cwd on_disk inherited_text EnvironmentConfiguration_init).
Proof.
  intros Hflag.
  destruct (first_env_flag argv Hflag) as (pre & rest & Hargv & Hpre).
  pose proof (ENVIRONMENT_or_development
                (ToString (at_index argv (indexOf argv "--env" + 1)))) as He.
  unfold load. unfold indexOf in *.
  rewrite Hargv in *. rewrite indexOf_from_first in * by done.
  rewrite bool_decide_eq_true_2 by lia. cbn [fst environment base].
  set (selected := value_or _ _) in *. clearbody selected.
  split; [done|]. intros e ->.
  case_bool_decide as Hin.
  - injection He as ->.
    unfold keys in Hin. cbn [fmap list_fmap ENVIRONMENT.members fst] in Hin.
    rewrite !elem_of_cons, elem_of_nil in Hin.
    by destruct Hin as [->|[->|[->|[->|[]]]]].
  - case_bool_decide; [discriminate He|]. by injection He as ->.
Qed.

(** On the production command line a stale test configuration is
    replaced. *)
Lemma load_overrides_witness :
  (load Sample.argv_production Sample.cwd Sample.all_on_disk
     Sample.inherited_text
     {| environment := Str "test"; base := Some "dist" |}).1 =
  {| environment := Str "production"; base := Some "" |}.
Proof.
  destruct (load_overrides Sample.argv_production Sample.cwd
              Sample.all_on_disk Sample.inherited_text
              {| environment := Str "test"; base := Some "dist" |})
    as [_ H].
  - apply (bool_decide_unpack _). vm_compute. exact I.
  - rewrite (H "production" eq_refl). reflexivity.
Defined.

(** Under test the upload directory is under [dist]; under production the
    log directory is under the empty base. *)
Lemma derived_paths_root_witness :
  Upload.destination
    (upload Sample.argv_test Sample.cwd Sample.all_on_disk
       Sample.inherited_text ∅
       Sample.AUDIO_MIME_TYPE Sample.ARCHIVE_MIME_TYPE
       Sample.DOCUMENT_MIME_TYPE Sample.IMAGE_MIME_TYPE
       Sample.VIDEO_MIME_TYPE Sample.enum_list) = "/srv/api/dist/public" ∧
  Logs.path
    (logs Sample.argv_production Sample.cwd Sample.all_on_disk
       Sample.inherited_text ∅) = "/srv/api//logs".
Proof.
  split.
  - destruct (derived_paths_root Sample.argv_test Sample.cwd
                Sample.all_on_disk Sample.inherited_text ∅
                Sample.AUDIO_MIME_TYPE Sample.ARCHIVE_MIME_TYPE
                Sample.DOCUMENT_MIME_TYPE Sample.IMAGE_MIME_TYPE
                Sample.VIDEO_MIME_TYPE Sample.enum_list "dist")
      as (_ & H & _).
    + left. split; [|reflexivity].
      apply (bool_decide_unpack _). vm_compute. exact I.
    + rewrite H. reflexivity.
  - destruct (derived_paths_root Sample.argv_production Sample.cwd
                Sample.all_on_disk Sample.inherited_text ∅
                Sample.AUDIO_MIME_TYPE Sample.ARCHIVE_MIME_TYPE
                Sample.DOCUMENT_MIME_TYPE Sample.IMAGE_MIME_TYPE
                Sample.VIDEO_MIME_TYPE Sample.enum_list "")
      as (H & _).
    + right. left. split; [|reflexivity].
      apply (bool_decide_unpack _). vm_compute. exact I.
    + rewrite H. reflexivity.
Defined.

(** After [--env valueOf] the file [load] looks for is under [undefined]
    and is not found; under test it finds [dist/env/test.env]. *)
Lemma load_env_file_witness :
  (load (Sample.argv_plain ++ ["--env"; "valueOf"]) Sample.cwd
     Sample.env_files Sample.inherited_text EnvironmentConfiguration_init).2 =
  Throw ".env file not found on /srv/api/undefined/env/function valueOf() { [native code] }.env" ∧
  (load Sample.argv_test Sample.cwd Sample.env_files Sample.inherited_text
     EnvironmentConfiguration_init).2 = Return ().
Proof.
  split.
  - destruct (load_env_file (Sample.argv_plain ++ ["--env"; "valueOf"])
                Sample.cwd Sample.env_files Sample.inherited_text)
      as (_ & H).
    rewrite (H "valueOf" eq_refl). reflexivity.
  - destruct (load_env_file Sample.argv_test Sample.cwd Sample.env_files
                Sample.inherited_text) as (H & _).
    rewrite (H "test" eq_refl). reflexivity.
Defined.
